(** * A submission board with server-sent events: [main.ts] and [sse.ts]

    The server keeps two pieces of state: the Deno KV store written by
    [handleSubmit] and read by [handleList], and the module-level set
    [sseClients] of stream controllers that [broadcastNewSketch] writes to.
    Handlers are embedded as computations over one [World] in a state and
    exception monad, so that a JavaScript [throw] and the [try]/[catch] of
    [handleSubmit] are explicit.  What the platform decides -- the UUID, the
    clock, whether the store accepts a write, when a client goes away -- is
    an input: [Env] for one request, [Server.Event] for a run. *)

From Stdlib Require Import ZArith Ascii String Sorted.
From stdpp Require Import base list strings gmap pretty.

Local Open Scope string_scope.
Local Open Scope Z_scope.
Set Warnings "-register-all".

(** ** JavaScript values *)

Module Js.

(** A JavaScript number as [JSON.parse] can give it (never NaN), by the
    decimal digits that [Number::toString] prints: [Finite negative digits
    point] is the number whose shortest decimal form has the digits of
    [digits] with the decimal point after the first [point] of them (before
    them all, with zeros between, when [point] is zero or negative), so that
    its value is [digits] times ten to the power [point] minus the number of
    digits.  The digits of a number other than zero do not end in 0; zero
    has [digits] 0, with either sign.  A literal beyond the range of a
    double, such as [1e999], is read as [Infinity]. *)
Inductive JsNumber : Type :=
| Finite (negative : bool) (digits : N) (point : Z)
| Infinity (negative : bool).

Fixpoint strip_zeros (fuel : nat) (d : N) : N :=
  match fuel with
  | O => d
  | S fuel' =>
      if ((0 <? d) && (d mod 10 =? 0))%N
      then strip_zeros fuel' (d / 10)%N
      else d
  end.

(** The number of an integer: its digits without the zeros at the end, and
    the point after its last digit. *)
Definition of_Z (z : Z) : JsNumber :=
  let d := Z.to_N (Z.abs z) in
  Finite (z <? 0) (strip_zeros (N.to_nat (N.log2 d)) d)
         (Z.of_nat (String.length (pretty d))).

Coercion of_Z : Z >-> JsNumber.

(** The values [JSON.parse] can produce.  [undefined], the result of
    reading an absent property, is [None] in [option JsValue]. *)
Inductive JsValue : Type :=
| JNull
| JBool (b : bool)
| JNum (n : JsNumber)
| JStr (s : string)
| JArr (items : list JsValue)
| JObj (props : list (string * JsValue)).
Arguments JNum n%_Z.

Inductive Exn : Type :=
| TypeError (msg : string)
| SyntaxError (msg : string)
| KvError (msg : string)
| NotFound (path : string).

(** The result of evaluating something that may throw. *)
Inductive Outcome (A : Type) : Type :=
| Return (a : A)
| Throw (e : Exn).
Arguments Return {A} a.
Arguments Throw {A} e.

(** ToBoolean: [undefined], [null], [false], zero and the empty string are
    falsy, every other value (arrays and objects included) is truthy. *)
Definition truthy (v : option JsValue) : bool :=
  match v with
  | None => false
  | Some JNull => false
  | Some (JBool b) => b
  | Some (JNum (Finite _ digits _)) => negb (digits =? 0)%N
  | Some (JNum (Infinity _)) => true
  | Some (JStr s) => negb (String.eqb s "")
  | Some (JArr _) => true
  | Some (JObj _) => true
  end.

Definition typeof (v : option JsValue) : string :=
  match v with
  | None => "undefined"
  | Some JNull => "object"
  | Some (JBool _) => "boolean"
  | Some (JNum _) => "number"
  | Some (JStr _) => "string"
  | Some (JArr _) => "object"
  | Some (JObj _) => "object"
  end.

Fixpoint own_property (k : string) (props : list (string * JsValue))
  : option JsValue :=
  match props with
  | [] => None
  | (k', v) :: rest => if String.eqb k k' then Some v else own_property k rest
  end.

(** [data.k] for a key [k] that no prototype defines (the program reads
    [embed] and [creator] only): reading from [null] throws, an object
    answers with its own property, every other value with [undefined]. *)
Definition get (data : JsValue) (k : string) : Outcome (option JsValue) :=
  match data with
  | JNull => Throw (TypeError "Cannot read properties of null")
  | JObj props => Return (own_property k props)
  | _ => Return None
  end.

(** [a || b] *)
Definition or_else (a : option JsValue) (b : JsValue) : JsValue :=
  match a with
  | Some v => if truthy a then v else b
  | None => b
  end.

(** The string held by a value whose [typeof] is ["string"]. *)
Definition string_of (v : option JsValue) : string :=
  match v with
  | Some (JStr s) => s
  | _ => ""
  end.

Definition chr (n : nat) : string := String (ascii_of_nat n) EmptyString.
Definition LF : string := chr 10.
Definition dquote : string := chr 34.
Definition backslash : string := chr 92.

Definition hex_digit (n : nat) : string :=
  match n with
  | 10%nat => "a" | 11%nat => "b" | 12%nat => "c"
  | 13%nat => "d" | 14%nat => "e" | 15%nat => "f"
  | _ => chr (48 + n)
  end.

(** QuoteJSONString, one code unit at a time. *)
Definition escape (c : ascii) : string :=
  let n := nat_of_ascii c in
  match n with
  | 8%nat => backslash +:+ "b"
  | 9%nat => backslash +:+ "t"
  | 10%nat => backslash +:+ "n"
  | 12%nat => backslash +:+ "f"
  | 13%nat => backslash +:+ "r"
  | 34%nat => backslash +:+ dquote
  | 92%nat => backslash +:+ backslash
  | _ =>
      if (n <? 32)%nat
      then backslash +:+ "u00" +:+ hex_digit (n / 16) +:+ hex_digit (n mod 16)
      else String c EmptyString
  end.

Fixpoint escape_all (s : string) : string :=
  match s with
  | EmptyString => EmptyString
  | String c rest => escape c +:+ escape_all rest
  end.

Definition quote (s : string) : string := dquote +:+ escape_all s +:+ dquote.

Fixpoint zeros (n : nat) : string :=
  match n with
  | O => EmptyString
  | S n' => String "0" (zeros n')
  end.

(** [Number::toString] in radix 10, with [s] the digits, [k] their number
    and [n] the point: the digits and then zeros when [k <= n <= 21]; a
    point inside the digits when [0 < n <= 21]; ["0."], zeros and the
    digits when [-6 < n <= 0]; and otherwise the exponent form, [d.ddd]
    then [e], the sign of [n - 1] and its size. *)
Definition Number_toString (x : JsNumber) : string :=
  match x with
  | Infinity false => "Infinity"
  | Infinity true => "-Infinity"
  | Finite negative digits n =>
      if (digits =? 0)%N then "0"
      else
        let s := pretty digits in
        let k := Z.of_nat (String.length s) in
        let unsigned :=
          if (k <=? n) && (n <=? 21)
          then s +:+ zeros (Z.to_nat (n - k))
          else if (0 <? n) && (n <=? 21)
          then String.substring 0 (Z.to_nat n) s +:+ "."
               +:+ String.substring (Z.to_nat n) (Z.to_nat (k - n)) s
          else if (-6 <? n) && (n <=? 0)
          then "0." +:+ zeros (Z.to_nat (- n)) +:+ s
          else
            let exponent :=
              "e" +:+ (if n - 1 <? 0 then "-" else "+")
                  +:+ pretty (Z.abs (n - 1)) in
            if k =? 1 then s +:+ exponent
            else String.substring 0 1 s +:+ "."
                 +:+ String.substring 1 (Z.to_nat (k - 1)) s +:+ exponent
        in
        (if negative then "-" else "") +:+ unsigned
  end.

(** [JSON.stringify(v)] without indentation: properties in their own order,
    no white space; a finite number as [Number::toString] prints it, a
    number that is not finite as [null]. *)
Fixpoint JSON_stringify (v : JsValue) : string :=
  match v with
  | JNull => "null"
  | JBool true => "true"
  | JBool false => "false"
  | JNum (Infinity _) => "null"
  | JNum n => Number_toString n
  | JStr s => quote s
  | JArr items => "[" +:+ String.concat "," (List.map JSON_stringify items) +:+ "]"
  | JObj props =>
      "{" +:+ String.concat ","
                (List.map (fun p => quote (fst p) +:+ ":" +:+ JSON_stringify (snd p))
                          props)
          +:+ "}"
  end.

End Js.
Export Js.

(** ** HTTP messages *)

(** A [ReadableStreamDefaultController] is identified by the order in which
    the streams were constructed. *)
Definition Controller : Type := nat.

Inductive Body : Type :=
| BodyText (text : string)
| BodyBytes (bytes : list Byte.byte)
| BodyStream (controller : Controller).

(** [new Response(body, { status, headers })]: [status] defaults to 200, and
    [headers] are the ones the handler passes. *)
Record Response : Type := mkResponse {
  status : Z;
  headers : list (string * string);
  body : Body
}.

(** What the handlers read of a [Request]: the method, the path of
    [new URL(req.url)], and the result of [await req.json()], which is
    [None] when the body does not parse and the promise rejects. *)
Record Request : Type := mkRequest {
  method : string;
  pathname : string;
  json : option JsValue
}.

(** ** The state of the server *)

(** A record of the key-value store, as [handleSubmit] builds it.  The
    [creator] is whatever value the request carried: the declared type
    [string | null] is not checked at run time. *)
Record Submission : Type := mkSubmission {
  id : string;
  embed : string;
  creator : JsValue;
  timestamp : Z
}.

Definition json_of_submission (s : Submission) : JsValue :=
  JObj [("id", JStr (id s)); ("embed", JStr (embed s));
        ("creator", creator s); ("timestamp", JNum (timestamp s))].

(** Deno KV: keys are tuples of parts (here strings), entries are kept and
    listed in ascending key order, and [set] overwrites the entry of an
    existing key. *)
Module Kv.

Definition Key : Type := list string.
Definition Store : Type := list (Key * Submission).

Fixpoint compare (k1 k2 : Key) : comparison :=
  match k1, k2 with
  | [], [] => Eq
  | [], _ :: _ => Lt
  | _ :: _, [] => Gt
  | p1 :: r1, p2 :: r2 =>
      match String.compare p1 p2 with
      | Eq => compare r1 r2
      | c => c
      end
  end.

Fixpoint set (key : Key) (value : Submission) (store : Store) : Store :=
  match store with
  | [] => [(key, value)]
  | (k, v) :: rest =>
      match compare key k with
      | Lt => (key, value) :: (k, v) :: rest
      | Eq => (key, value) :: rest
      | Gt => (k, v) :: set key value rest
      end
  end.

Fixpoint has_prefix (prefix key : Key) : bool :=
  match prefix, key with
  | [], _ => true
  | _ :: _, [] => false
  | p :: ps, k :: ks => String.eqb p k && has_prefix ps ks
  end.

(** [kv.list({ prefix })]: the entries whose key extends [prefix] by at
    least one part, in key order. *)
Definition list (prefix : Key) (store : Store) : Store :=
  List.filter
    (fun e => has_prefix prefix (fst e)
              && (length prefix <? length (fst e))%nat)
    store.

End Kv.

(** A readable stream is [Readable] until it is cancelled or closed. *)
Inductive StreamState : Type := Readable | Closed.

(** One [ReadableStream] made by [handleSSE]: its state, the chunks
    enqueued on its controller so far (oldest first), and the variable
    [controllerRef] that its [start] and [cancel] callbacks close over. *)
Record Stream : Type := mkStream {
  state : StreamState;
  chunks : list string;
  controllerRef : option Controller
}.

Record World : Type := mkWorld {
  kv : Kv.Store;
  sseClients : list Controller;
  streams : gmap Controller Stream;
  next_controller : Controller;
  files : gmap string (list Byte.byte)
}.

Definition with_kv (f : Kv.Store -> Kv.Store) (w : World) : World :=
  mkWorld (f (kv w)) (sseClients w) (streams w) (next_controller w) (files w).
Definition with_sseClients (f : list Controller -> list Controller) (w : World)
  : World :=
  mkWorld (kv w) (f (sseClients w)) (streams w) (next_controller w) (files w).
Definition with_streams
  (f : gmap Controller Stream -> gmap Controller Stream) (w : World) : World :=
  mkWorld (kv w) (sseClients w) (f (streams w)) (next_controller w) (files w).
Definition with_next_controller (n : Controller) (w : World) : World :=
  mkWorld (kv w) (sseClients w) (streams w) n (files w).

(** What the platform hands to one request: the value of
    [crypto.randomUUID()], the value of [Date.now()], and whether the
    promise of [kv.set] rejects. *)
Record Env : Type := mkEnv {
  uuid : string;
  now : Z;
  kv_set_rejects : bool
}.

(** ** Computations that read and write the world and may throw *)

Definition M (A : Type) : Type := World -> Outcome A * World.

Definition ret {A} (a : A) : M A := fun w => (Return a, w).

Definition bind {A B} (m : M A) (k : A -> M B) : M B :=
  fun w =>
    match m w with
    | (Return a, w') => k a w'
    | (Throw e, w') => (Throw e, w')
    end.

Definition throw {A} (e : Exn) : M A := fun w => (Throw e, w).

(** [try { m } catch { h }]: what [m] did to the world before throwing stays
    done. *)
Definition try_catch {A} (m : M A) (h : Exn -> M A) : M A :=
  fun w =>
    match m w with
    | (Return a, w') => (Return a, w')
    | (Throw e, w') => h e w'
    end.

Definition lift {A} (o : Outcome A) : M A := fun w => (o, w).

Notation "'let*' x ':=' m 'in' k" := (bind m (fun x => k))
  (at level 10, x name, m at level 100, k at level 200).
Notation "'run' m 'in' k" := (bind m (fun _ => k))
  (at level 10, m at level 100, k at level 200).

(** [for (const x of xs) body(x)] *)
Fixpoint for_of {A} (xs : list A) (body : A -> M unit) : M unit :=
  match xs with
  | [] => ret tt
  | x :: rest => run body x in for_of rest body
  end.

(** ** sse.ts *)

(** A JavaScript [Set] of controllers: the elements in insertion order,
    each once. *)
Module JsSet.

Definition has (c : Controller) (s : list Controller) : bool :=
  bool_decide (c ∈ s).

Definition add (c : Controller) (s : list Controller) : list Controller :=
  if has c s then s else s ++ [c].

Definition delete (c : Controller) (s : list Controller) : list Controller :=
  List.filter (fun x => negb (Nat.eqb x c)) s.

End JsSet.

Module Sse.

(** [controller.enqueue(chunk)]: throws a [TypeError] unless the stream is
    readable, and otherwise appends the chunk to what the stream holds. *)
Definition enqueue (controller : Controller) (chunk : string) : M unit :=
  fun w =>
    match streams w !! controller with
    | Some (mkStream Readable q r) =>
        (Return tt,
         with_streams (insert controller (mkStream Readable (q ++ [chunk]) r)) w)
    | _ =>
        (Throw (TypeError "The stream controller cannot close or enqueue"), w)
    end.

Definition frame (message : string) : string :=
  "data: " +:+ message +:+ LF +:+ LF.

Definition broadcastNewSketch (message : string) : M unit :=
  fun w =>
    for_of (sseClients w)
           (fun controller => enqueue controller (frame message)) w.

(** The [start(controller)] callback of the stream [handleSSE] makes. *)
Definition start (controller : Controller) : M unit :=
  fun w =>
    let w1 :=
      with_streams
        (alter (fun s => mkStream (state s) (chunks s) (Some controller))
               controller) w in
    (Return tt, with_sseClients (JsSet.add controller) w1).

(** The [cancel()] callback of the stream whose controller is [self]. *)
Definition cancel (self : Controller) : M unit :=
  fun w =>
    match streams w !! self with
    | Some (mkStream _ _ (Some controllerRef)) =>
        (Return tt, with_sseClients (JsSet.delete controllerRef) w)
    | _ => (Return tt, w)
    end.

Definition sse_headers : list (string * string) :=
  [("Content-Type", "text/event-stream");
   ("Cache-Control", "no-cache");
   ("Connection", "keep-alive")].

(** [new ReadableStream({ start, cancel })] creates a fresh controller and
    calls [start] before the constructor returns. *)
Definition handleSSE : M Response :=
  fun w =>
    let controller := next_controller w in
    let w1 :=
      with_next_controller (S controller)
        (with_streams (insert controller (mkStream Readable [] None)) w) in
    (run start controller in
     ret (mkResponse 200 sse_headers (BodyStream controller))) w1.

(** What the platform does when the consumer of the response body goes away
    (the client closes the connection, cancels, or the transport fails): it
    cancels the stream.  Cancelling a stream that is no longer readable does
    nothing; otherwise the stream is closed and then its [cancel] callback
    runs. *)
Definition ReadableStreamCancel (controller : Controller) : M unit :=
  fun w =>
    match streams w !! controller with
    | Some (mkStream Readable q r) =>
        cancel controller
               (with_streams (insert controller (mkStream Closed q r)) w)
    | _ => (Return tt, w)
    end.

End Sse.

(** ** main.ts *)

Definition json_headers : list (string * string) :=
  [("Content-Type", "application/json")].

Definition error_body (msg : string) : Body :=
  BodyText (JSON_stringify (JObj [("error", JStr msg)])).

(** [await _req.json()] *)
Definition req_json (req : Request) : M JsValue :=
  match json req with
  | Some data => ret data
  | None => throw (SyntaxError "Unexpected token in JSON")
  end.

(** [await kv.set(key, value)] *)
Definition kv_set (env : Env) (key : Kv.Key) (value : Submission) : M unit :=
  fun w =>
    if kv_set_rejects env
    then (Throw (KvError "set failed"), w)
    else (Return tt, with_kv (Kv.set key value) w).

(** [await Deno.readFile(path)] *)
Definition readFile (path : string) : M (list Byte.byte) :=
  fun w =>
    match files w !! path with
    | Some bytes => (Return bytes, w)
    | None => (Throw (NotFound path), w)
    end.

Definition endsWith (s suffix : string) : bool :=
  let n := String.length s in
  let m := String.length suffix in
  (m <=? n)%nat && String.eqb (String.substring (n - m) m s) suffix.

Definition startsWith (s prefix : string) : bool := String.prefix prefix s.

(** [xs.sort(cmp)]: the sort is stable; [cmp a b <= 0] keeps [a] before
    [b]. *)
Fixpoint sort_insert {A} (cmp : A -> A -> Z) (x : A) (sorted : list A)
  : list A :=
  match sorted with
  | [] => [x]
  | y :: rest =>
      if cmp x y <=? 0 then x :: y :: rest else y :: sort_insert cmp x rest
  end.

Definition sort {A} (cmp : A -> A -> Z) (xs : list A) : list A :=
  List.fold_right (sort_insert cmp) [] xs.

(** [for await (const entry of kv.list({ prefix: ["iframe"] }))
      if (entry.value) submissions.push(entry.value)], for a store that
    can be read.  [handleList] has no [try] around this loop: were the
    reading to fail, the exception would leave the handler. *)
Definition collect (store : Kv.Store) : list Submission :=
  List.filter (fun value => truthy (Some (json_of_submission value)))
              (List.map snd (Kv.list ["iframe"] store)).

Definition submissions_body (submissions : list Submission) : Body :=
  BodyText (JSON_stringify (JArr (List.map json_of_submission submissions))).

Definition not_found : Response := mkResponse 404 [] (BodyText "Not Found").

(** The first text of [main.ts]. *)
Module Main.

Definition handleSubmit (env : Env) (_req : Request) : M Response :=
  try_catch
    (let* data := req_json _req in
     let* data_embed := lift (get data "embed") in
     if negb (truthy data_embed)
        || negb (String.eqb (typeof data_embed) "string")
     then
       ret (mkResponse 400 json_headers
              (error_body "Missing or invalid 'embed' field."))
     else
       let id := uuid env in
       let* data_creator := lift (get data "creator") in
       let submission :=
         mkSubmission id (string_of data_embed) (or_else data_creator JNull)
                      (now env) in
       run kv_set env ["iframe"; id] submission in
       run Sse.broadcastNewSketch
             (JSON_stringify (json_of_submission submission)) in
       ret (mkResponse 201 json_headers
              (BodyText (JSON_stringify (json_of_submission submission)))))
    (fun _ =>
       ret (mkResponse 400 json_headers
              (error_body "Invalid JSON or server error."))).

Definition handleList (_req : Request) : M Response :=
  fun w =>
    let submissions := collect (kv w) in
    let submissions := sort (fun a b => timestamp b - timestamp a) submissions in
    (Return (mkResponse 200 json_headers (submissions_body submissions)), w).

Definition serveIndex : M Response :=
  try_catch
    (let* file := readFile "./index.html" in
     ret (mkResponse 200 [("Content-Type", "text/html")] (BodyBytes file)))
    (fun _ => ret not_found).

Definition serveStatic (req : Request) : M Response :=
  let filePath := "." +:+ pathname req in
  try_catch
    (let* file := readFile filePath in
     let contentType :=
       if endsWith (pathname req) ".css" then "text/css" else "text/plain" in
     ret (mkResponse 200 [("Content-Type", contentType)] (BodyBytes file)))
    (fun _ => ret not_found).

Definition handler (env : Env) (req : Request) : M Response :=
  if String.eqb (pathname req) "/submit" && String.eqb (method req) "POST"
  then handleSubmit env req
  else if String.eqb (pathname req) "/sketches" && String.eqb (method req) "GET"
  then handleList req
  else if String.eqb (pathname req) "/events" && String.eqb (method req) "GET"
  then Sse.handleSSE
  else if startsWith (pathname req) "/static/"
  then serveStatic req
  else if String.eqb (pathname req) "/"
  then serveIndex
  else ret not_found.

End Main.

(** The second text of [main.ts]: the same [handleSubmit] and [serveIndex],
    a [handleList] without the sort, and a router without [/static/]. *)
Module Main2.

Definition handleSubmit : Env -> Request -> M Response := Main.handleSubmit.

Definition handleList (_req : Request) : M Response :=
  fun w =>
    let submissions := collect (kv w) in
    (Return (mkResponse 200 json_headers (submissions_body submissions)), w).

Definition serveIndex : M Response := Main.serveIndex.

Definition handler (env : Env) (req : Request) : M Response :=
  if String.eqb (pathname req) "/submit" && String.eqb (method req) "POST"
  then handleSubmit env req
  else if String.eqb (pathname req) "/sketches" && String.eqb (method req) "GET"
  then handleList req
  else if String.eqb (pathname req) "/events" && String.eqb (method req) "GET"
  then Sse.handleSSE
  else if String.eqb (pathname req) "/"
  then serveIndex
  else ret not_found.

End Main2.

(** ** Vocabulary of the statements *)

Definition is_readable (w : World) (c : Controller) : bool :=
  match streams w !! c with
  | Some (mkStream Readable _ _) => true
  | _ => false
  end.

(** The chunks enqueued so far on the controller [c]. *)
Definition received (w : World) (c : Controller) : list string :=
  match streams w !! c with
  | Some s => chunks s
  | None => []
  end.

Definition append_chunk (chunk : string) (s : Stream) : Stream :=
  mkStream (state s) (chunks s ++ [chunk]) (controllerRef s).

(** The streams after [chunk] was enqueued on each controller of [cs]. *)
Definition deliver (chunk : string) (cs : list Controller)
  (m : gmap Controller Stream) : gmap Controller Stream :=
  List.fold_left (fun m c => alter (append_chunk chunk) c m) cs m.

(** The two kinds of answer [handleSubmit] gives. *)
Definition bad_request (msg : string) : Response :=
  mkResponse 400 json_headers (error_body msg).

Definition created (submission : Submission) : Response :=
  mkResponse 201 json_headers
    (BodyText (JSON_stringify (json_of_submission submission))).

(** ** The server as a transition system *)

(** [Deno.serve(handler)] runs the handler on each incoming request; between
    requests, clients of [/events] may go away. *)
Module Server.

Inductive Event : Type :=
| Incoming (env : Env) (req : Request)
| Disconnect (controller : Controller).

Definition step (w : World) (ev : Event) : World :=
  match ev with
  | Incoming env req => snd (Main.handler env req w)
  | Disconnect controller => snd (Sse.ReadableStreamCancel controller w)
  end.

Definition steps (w : World) (evs : list Event) : World :=
  List.fold_left step evs w.

(** The server as it starts: an empty store, no client. *)
Definition init (fs : gmap string (list Byte.byte)) : World :=
  mkWorld [] [] ∅ 0%nat fs.

Definition registered (w : World) (c : Controller) : bool :=
  JsSet.has c (sseClients w).

(** How many steps of a run take [c] out of the set of clients, and how
    many put it in. *)
Fixpoint unregistrations (c : Controller) (w : World) (evs : list Event) : nat :=
  match evs with
  | [] => 0%nat
  | ev :: rest =>
      ((if registered w c && negb (registered (step w ev) c) then 1 else 0)
       + unregistrations c (step w ev) rest)%nat
  end.

Fixpoint registrations (c : Controller) (w : World) (evs : list Event) : nat :=
  match evs with
  | [] => 0%nat
  | ev :: rest =>
      ((if negb (registered w c) && registered (step w ev) c then 1 else 0)
       + registrations c (step w ev) rest)%nat
  end.

(** What holds of every state the server reaches: the clients are distinct
    controllers of readable streams, each stream knows its own controller,
    controllers not yet handed out have no stream, and every chunk on a
    stream is the frame of a submission. *)
Record consistent (w : World) : Prop := mkConsistent {
  clients_distinct : NoDup (sseClients w);
  clients_readable : forall c, c ∈ sseClients w -> is_readable w c = true;
  streams_own :
    forall c s, streams w !! c = Some s ->
                controllerRef s = Some c /\ (c < next_controller w)%nat;
  chunks_framed :
    forall c s chunk,
      streams w !! c = Some s -> chunk ∈ chunks s ->
      exists submission,
        chunk = Sse.frame (JSON_stringify (json_of_submission submission))
}.

End Server.

(** A submission that nothing stops: well formed, and the store takes it. *)
Definition accepted_post (p : Env * Request) : Prop :=
  method (snd p) = "POST" /\ pathname (snd p) = "/submit" /\
  kv_set_rejects (fst p) = false /\
  exists data e,
    json (snd p) = Some data /\
    get data "embed" = Return (Some (JStr e)) /\ e <> "".

(** The state after the server has handled [posts] one after the other. *)
Definition submit_all (w : World) (posts : list (Env * Request)) : World :=
  List.fold_left (fun w p => snd (Main.handler (fst p) (snd p) w)) posts w.



(** A line of an event stream ends at a line feed or a carriage return. *)
Definition is_line_break (c : ascii) : bool :=
  (nat_of_ascii c =? 10)%nat || (nat_of_ascii c =? 13)%nat.

Fixpoint one_line (s : string) : bool :=
  match s with
  | EmptyString => true
  | String c rest => negb (is_line_break c) && one_line rest
  end.

(** Every character of [s] passes the test [P]. *)
Fixpoint every (P : ascii -> bool) (s : string) : bool :=
  match s with
  | EmptyString => true
  | String c rest => P c && every P rest
  end.


(** [req] is the request the router hands to [handleSubmit], or to
    [handleSSE]. *)
Definition is_submit (req : Request) : bool :=
  String.eqb (pathname req) "/submit" && String.eqb (method req) "POST".

Definition is_events (req : Request) : bool :=
  String.eqb (pathname req) "/events" && String.eqb (method req) "GET".

Definition is_sketches (req : Request) : bool :=
  String.eqb (pathname req) "/sketches" && String.eqb (method req) "GET".

(** ** Sample inputs *)

Module Sample.

Definition post (data : JsValue) : Request :=
  mkRequest "POST" "/submit" (Some data).

Definition heart : JsValue :=
  JObj [("embed", JStr "<iframe src='https://editor.p5js.org/heart/full/1'></iframe>")].

Definition heart_by (creator : JsValue) : JsValue :=
  JObj [("embed", JStr "<iframe src='https://editor.p5js.org/heart/full/1'></iframe>");
        ("creator", creator)].

Definition garbled : Request := mkRequest "POST" "/submit" None.

Definition env1 : Env := mkEnv "1b4e28ba-2fa1-41d2-883f-0016d3cca427" 1739500000000 false.
Definition env2 : Env := mkEnv "6fa459ea-ee8a-4ca4-894e-db77e160355e" 1739500060000 false.
Definition env_kv_down : Env := mkEnv "1b4e28ba-2fa1-41d2-883f-0016d3cca427" 1739500000000 true.

Definition empty : World := Server.init ∅.

(** Three registered controllers, the second on a stream that is no longer
    readable. *)
Definition stale : World :=
  mkWorld [] [0%nat; 1%nat; 2%nat]
    (list_to_map
       [(0%nat, mkStream Readable [] (Some 0%nat));
        (1%nat, mkStream Closed [] (Some 1%nat));
        (2%nat, mkStream Readable [] (Some 2%nat))])
    3%nat ∅.

(** The state after two accepted submissions, served by the second text of
    [main.ts]: the first at [now env1], the second a minute later. *)
Definition two_posts : World :=
  snd (Main2.handler env2 (post (heart_by (JStr "pim")))
         (snd (Main2.handler env1 (post heart) empty))).

Definition first_record : Submission :=
  mkSubmission (uuid env1)
    "<iframe src='https://editor.p5js.org/heart/full/1'></iframe>" JNull (now env1).

Definition second_record : Submission :=
  mkSubmission (uuid env2)
    "<iframe src='https://editor.p5js.org/heart/full/1'></iframe>" (JStr "pim")
    (now env2).

Definition get_sketches : Request := mkRequest "GET" "/sketches" None.

Definition site : gmap string (list Byte.byte) :=
  list_to_map
    [("./static/style.css", [Byte.x62; Byte.x7b; Byte.x7d]);
     ("./static/submitSketch.js", [Byte.x2f; Byte.x2f])].

End Sample.

(** * Properties *)

Local Open Scope nat_scope.

(** ** The monad *)

Lemma for_of_app {A} (xs ys : list A) (body : A -> M unit) (w : World) :
  for_of (xs ++ ys) body w =
  match for_of xs body w with
  | (Return _, w') => for_of ys body w'
  | (Throw e, w') => (Throw e, w')
  end.
Proof.
  revert w. induction xs as [|x xs IH]; intros w; simpl.
  - reflexivity.
  - unfold bind. destruct (body x w) as [[[]|e] w1]; [apply IH | reflexivity].
Qed.

(** ** Enqueueing and broadcasting *)

Lemma is_readable_spec (w : World) (c : Controller) :
  is_readable w c = true <->
  exists q r, streams w !! c = Some (mkStream Readable q r).
Proof.
  unfold is_readable. split.
  - destruct (streams w !! c) as [[[] q r]|]; try discriminate. eauto.
  - intros (q & r & ->). reflexivity.
Qed.

Lemma enqueue_readable (w : World) (c : Controller) (chunk : string) :
  is_readable w c = true ->
  Sse.enqueue c chunk w =
  (Return tt, with_streams (alter (append_chunk chunk) c) w).
Proof.
  intros H. apply is_readable_spec in H as (q & r & H).
  unfold Sse.enqueue. rewrite H. f_equal. unfold with_streams. f_equal.
  apply map_eq. intros i. rewrite lookup_alter, lookup_insert.
  repeat case_decide; subst; try congruence. rewrite H. reflexivity.
Qed.

Lemma enqueue_not_readable (w : World) (c : Controller) (chunk : string) :
  is_readable w c = false ->
  Sse.enqueue c chunk w =
  (Throw (TypeError "The stream controller cannot close or enqueue"), w).
Proof.
  unfold is_readable, Sse.enqueue.
  destruct (streams w !! c) as [[[] q r]|]; intros; try discriminate; reflexivity.
Qed.

Lemma is_readable_alter (w : World) (chunk : string) (c c' : Controller) :
  is_readable (with_streams (alter (append_chunk chunk) c) w) c'
  = is_readable w c'.
Proof.
  unfold is_readable, with_streams. simpl. rewrite lookup_alter.
  case_decide; subst; [|reflexivity].
  destruct (streams w !! c') as [[[] q r]|]; reflexivity.
Qed.

Lemma is_readable_deliver (w : World) (chunk : string) (cs : list Controller)
  (c : Controller) :
  is_readable (with_streams (deliver chunk cs) w) c = is_readable w c.
Proof.
  revert w. induction cs as [|x cs IH]; intros w.
  - destruct w; reflexivity.
  - change (with_streams (deliver chunk (x :: cs)) w)
      with (with_streams (deliver chunk cs)
              (with_streams (alter (append_chunk chunk) x) w)).
    rewrite IH. apply is_readable_alter.
Qed.

(** The loop of [broadcastNewSketch] over controllers that all accept the
    chunk. *)
Lemma for_of_enqueue_readable (cs : list Controller) (chunk : string) (w : World) :
  (forall c, c ∈ cs -> is_readable w c = true) ->
  for_of cs (fun c => Sse.enqueue c chunk) w
  = (Return tt, with_streams (deliver chunk cs) w).
Proof.
  revert w. induction cs as [|x cs IH]; intros w H; simpl.
  - destruct w; reflexivity.
  - unfold bind. rewrite enqueue_readable by (apply H; left).
    rewrite IH; [reflexivity|].
    intros c Hc. rewrite is_readable_alter. apply H. by right.
Qed.

Lemma lookup_deliver_notin (chunk : string) (cs : list Controller)
  (m : gmap Controller Stream) (c : Controller) :
  c ∉ cs -> deliver chunk cs m !! c = m !! c.
Proof.
  revert m. induction cs as [|x cs IH]; intros m H; simpl; [reflexivity|].
  rewrite IH by (intros ?; apply H; by right).
  rewrite lookup_alter_ne; [reflexivity|]. intros ->. apply H. by left.
Qed.

Lemma lookup_deliver_in (chunk : string) (cs : list Controller)
  (m : gmap Controller Stream) (c : Controller) :
  NoDup cs -> c ∈ cs ->
  deliver chunk cs m !! c = append_chunk chunk <$> m !! c.
Proof.
  revert m. induction cs as [|x cs IH]; intros m Hnd Hin; simpl.
  - by apply not_elem_of_nil in Hin.
  - apply NoDup_cons in Hnd as [Hx Hnd].
    apply elem_of_cons in Hin as [->|Hin].
    + rewrite lookup_deliver_notin by exact Hx. by rewrite lookup_alter_eq.
    + rewrite IH by assumption. rewrite lookup_alter_ne; [reflexivity|].
      intros ->. contradiction.
Qed.

Lemma received_deliver_in (chunk : string) (cs : list Controller) (w : World)
  (c : Controller) :
  NoDup cs -> c ∈ cs -> is_readable w c = true ->
  received (with_streams (deliver chunk cs) w) c
  = (received w c ++ [chunk])%list.
Proof.
  intros Hnd Hin Hr. apply is_readable_spec in Hr as (q & r & Hr).
  unfold received, with_streams. simpl.
  rewrite lookup_deliver_in by assumption. rewrite Hr. reflexivity.
Qed.

Lemma received_deliver_notin (chunk : string) (cs : list Controller) (w : World)
  (c : Controller) :
  c ∉ cs -> received (with_streams (deliver chunk cs) w) c = received w c.
Proof.
  intros H. unfold received, with_streams. simpl.
  by rewrite lookup_deliver_notin.
Qed.

(** Whatever its outcome, a broadcast touches the streams only. *)
Lemma for_of_enqueue_frame (cs : list Controller) (chunk : string) (w w' : World)
  (o : Outcome unit) :
  for_of cs (fun c => Sse.enqueue c chunk) w = (o, w') ->
  kv w' = kv w /\ sseClients w' = sseClients w /\
  next_controller w' = next_controller w /\ files w' = files w.
Proof.
  revert w. induction cs as [|x cs IH]; intros w H; simpl in H.
  - inversion H; subst. repeat split.
  - unfold bind in H. destruct (is_readable w x) eqn:Hr.
    + rewrite enqueue_readable in H by exact Hr.
      apply IH in H. exact H.
    + rewrite enqueue_not_readable in H by exact Hr.
      inversion H; subst. repeat split.
Qed.

Lemma broadcast_frame (message : string) (w w' : World) (o : Outcome unit) :
  Sse.broadcastNewSketch message w = (o, w') ->
  kv w' = kv w /\ sseClients w' = sseClients w /\
  next_controller w' = next_controller w /\ files w' = files w.
Proof. apply for_of_enqueue_frame. Qed.

(** ** [handleSubmit], case by case *)

Lemma handleSubmit_unparsable (env : Env) (req : Request) (w : World) :
  json req = None ->
  Main.handleSubmit env req w
  = (Return (bad_request "Invalid JSON or server error."), w).
Proof.
  intros H. unfold Main.handleSubmit, try_catch, bind, req_json.
  rewrite H. reflexivity.
Qed.

Lemma handleSubmit_null (env : Env) (req : Request) (w : World) :
  json req = Some JNull ->
  Main.handleSubmit env req w
  = (Return (bad_request "Invalid JSON or server error."), w).
Proof.
  intros H. unfold Main.handleSubmit, try_catch, bind, req_json.
  rewrite H. reflexivity.
Qed.

Lemma handleSubmit_invalid_embed (env : Env) (req : Request) (w : World)
  (data : JsValue) (data_embed : option JsValue) :
  json req = Some data ->
  get data "embed" = Return data_embed ->
  (forall s, data_embed = Some (JStr s) -> s = "") ->
  Main.handleSubmit env req w
  = (Return (bad_request "Missing or invalid 'embed' field."), w).
Proof.
  intros Hj Hg Hs. unfold Main.handleSubmit, try_catch, bind, req_json, lift.
  rewrite Hj. simpl. rewrite Hg.
  destruct data_embed as [[| b | n | s | items | props]|]; simpl;
    try reflexivity.
  - destruct b; reflexivity.
  - destruct n as [negative digits point|negative]; simpl;
      [destruct (digits =? 0)%N|]; reflexivity.
  - rewrite (Hs s eq_refl). reflexivity.
Qed.

Lemma eqb_nonempty (s : string) : s <> "" -> String.eqb s "" = false.
Proof. intros H. apply String.eqb_neq. exact H. Qed.

(** A body with a usable [embed]: the record is built, written to the
    store, broadcast, and returned; a failure of the write or of the
    broadcast ends in the [catch]. *)
Lemma handleSubmit_valid (env : Env) (req : Request) (w : World)
  (data : JsValue) (e : string) (data_creator : option JsValue) :
  json req = Some data ->
  get data "embed" = Return (Some (JStr e)) ->
  e <> "" ->
  get data "creator" = Return data_creator ->
  let submission :=
    mkSubmission (uuid env) e (or_else data_creator JNull) (now env) in
  Main.handleSubmit env req w
  = if kv_set_rejects env
    then (Return (bad_request "Invalid JSON or server error."), w)
    else
      match Sse.broadcastNewSketch
              (JSON_stringify (json_of_submission submission))
              (with_kv (Kv.set ["iframe"; uuid env] submission) w) with
      | (Return _, w') => (Return (created submission), w')
      | (Throw _, w') =>
          (Return (bad_request "Invalid JSON or server error."), w')
      end.
Proof.
  intros Hj Hg He Hc submission.
  unfold Main.handleSubmit, try_catch, bind, req_json, lift, kv_set.
  rewrite Hj. simpl. rewrite Hg. simpl. rewrite (eqb_nonempty e He). simpl.
  rewrite Hc. destruct (kv_set_rejects env); [reflexivity|].
  fold submission.
  destruct (Sse.broadcastNewSketch _ _) as [[[]|ex] w']; reflexivity.
Qed.

Lemma get_embed_object (data : JsValue) (v : JsValue) :
  get data "embed" = Return (Some v) ->
  exists props, data = JObj props.
Proof. destruct data; simpl; intros H; try discriminate; eauto. Qed.

Lemma get_object_total (props : list (string * JsValue)) (k : string) :
  get (JObj props) k = Return (own_property k props).
Proof. reflexivity. Qed.

Lemma broadcast_unfold (message : string) (w : World) :
  Sse.broadcastNewSketch message w
  = for_of (sseClients w) (fun c => Sse.enqueue c (Sse.frame message)) w.
Proof. reflexivity. Qed.

(** [handleSubmit] never lets an exception escape. *)
Lemma handleSubmit_returns (env : Env) (req : Request) (w : World) :
  exists resp w', Main.handleSubmit env req w = (Return resp, w').
Proof.
  destruct (json req) as [data|] eqn:Hj.
  2: { rewrite handleSubmit_unparsable by exact Hj. eauto. }
  destruct (get data "embed") as [data_embed|ex] eqn:Hg.
  2: { destruct data; try discriminate Hg.
       rewrite handleSubmit_null by exact Hj. eauto. }
  destruct data_embed as [v|].
  2: { erewrite handleSubmit_invalid_embed; eauto. discriminate. }
  destruct (get_embed_object _ _ Hg) as [props ->].
  assert (Hbad : (forall s, Some v = Some (JStr s) -> s = "") ->
                 exists resp w', Main.handleSubmit env req w = (Return resp, w')).
  { intros Hs. erewrite handleSubmit_invalid_embed; eauto. }
  destruct v as [| b | n | s | items | ps];
    try (apply Hbad; intros s' Heq; discriminate Heq).
  destruct (decide (s = "")) as [->|Hs].
  - apply Hbad. intros s' Heq. congruence.
  - rewrite (handleSubmit_valid env req w _ s _ Hj Hg Hs
               (get_object_total props "creator")).
    destruct (kv_set_rejects env); [eauto|].
    destruct (Sse.broadcastNewSketch _ _) as [[[]|ex] w']; eauto.
Qed.

(** ** Routing *)

Lemma route_submit (env : Env) (req : Request) :
  method req = "POST" -> pathname req = "/submit" ->
  Main.handler env req = Main.handleSubmit env req.
Proof. intros Hm Hp. unfold Main.handler. rewrite Hm, Hp. reflexivity. Qed.


Lemma route_events (env : Env) (req : Request) :
  method req = "GET" -> pathname req = "/events" ->
  Main.handler env req = Sse.handleSSE.
Proof. intros Hm Hp. unfold Main.handler. rewrite Hm, Hp. reflexivity. Qed.

Lemma route_static (env : Env) (req : Request) :
  startsWith (pathname req) "/static/" = true ->
  Main.handler env req = Main.serveStatic req.
Proof.
  intros Hp. unfold Main.handler.
  assert (Hne : forall p, startsWith p "/static/" = false ->
                          String.eqb (pathname req) p = false).
  { intros p Hf. destruct (String.eqb_spec (pathname req) p) as [Heq|];
      [|reflexivity]. rewrite Heq in Hp. congruence. }
  rewrite !Hne by reflexivity. simpl. rewrite Hp. reflexivity.
Qed.

(** ** Validation errors of [POST /submit] *)

(** C4: a body that parses but whose [embed] is absent, is not a string, or
    is the empty string is answered with status 400, and the call changes
    nothing: the store (and the rest of the state) is as before. *)
Theorem submit_without_embed_rejected
  (env : Env) (req : Request) (w : World) (data : JsValue) :
  method req = "POST" -> pathname req = "/submit" ->
  json req = Some data ->
  (forall s, get data "embed" = Return (Some (JStr s)) -> s = "") ->
  exists resp w',
    Main.handler env req w = (Return resp, w') /\
    status resp = 400%Z /\ kv w' = kv w /\ w' = w.
Proof.
  intros Hm Hp Hj Hs. rewrite route_submit by assumption.
  destruct (get data "embed") as [data_embed|ex] eqn:Hg.
  - exists (bad_request "Missing or invalid 'embed' field."), w.
    rewrite (handleSubmit_invalid_embed env req w data data_embed Hj Hg).
    + repeat split.
    + intros s ->. apply Hs. reflexivity.
  - destruct data; try discriminate Hg.
    exists (bad_request "Invalid JSON or server error."), w.
    rewrite handleSubmit_null by exact Hj. repeat split.
Qed.

Lemma submit_without_embed_rejected_witness :
  exists resp w',
    Main.handler Sample.env1
      (Sample.post (JObj [("creator", JStr "pim"); ("embed", JNum 14)]))
      Sample.stale = (Return resp, w') /\
    status resp = 400%Z /\ kv w' = kv Sample.stale /\ w' = Sample.stale.
Proof.
  apply (submit_without_embed_rejected Sample.env1
           (Sample.post (JObj [("creator", JStr "pim"); ("embed", JNum 14)]))
           Sample.stale
           (JObj [("creator", JStr "pim"); ("embed", JNum 14)]));
    try reflexivity.
  intros s H. simpl in H. discriminate H.
Defined.

(** C5: a body that does not parse as JSON is answered with status 400 and
    the JSON object [{"error": "Invalid JSON or server error."}]; and no call
    of [handleSubmit], whatever the request and the state, ends in an
    exception: it always returns a response. *)
Theorem submit_unparsable_rejected (env : Env) (req : Request) (w : World) :
  method req = "POST" -> pathname req = "/submit" ->
  json req = None ->
  Main.handler env req w
  = (Return
       (mkResponse 400 [("Content-Type", "application/json")]
          (BodyText
             (JSON_stringify
                (JObj [("error", JStr "Invalid JSON or server error.")])))),
     w)
  /\ (forall env' req' w0,
        exists resp w', Main.handleSubmit env' req' w0 = (Return resp, w')).
Proof.
  intros Hm Hp Hj. split.
  - rewrite route_submit by assumption.
    rewrite handleSubmit_unparsable by exact Hj. reflexivity.
  - intros env' req' w0. apply handleSubmit_returns.
Qed.

Lemma submit_unparsable_rejected_witness :
  Main.handler Sample.env1 Sample.garbled Sample.stale
  = (Return
       (mkResponse 400 [("Content-Type", "application/json")]
          (BodyText
             (JSON_stringify
                (JObj [("error", JStr "Invalid JSON or server error.")])))),
     Sample.stale).
Proof.
  apply (submit_unparsable_rejected Sample.env1 Sample.garbled Sample.stale);
    reflexivity.
Defined.

(** ** Static files *)

(** C9: a GET whose path starts with [/static/] is answered from the file
    at ["." + path].  When the file can be read the answer is 200 with the
    bytes of the file and the content type the extension selects:
    [text/css] for a path ending in [.css], [text/plain] for any other.
    When it cannot be read the answer is 404. *)
Theorem static_file_served (env : Env) (req : Request) (w : World) :
  method req = "GET" ->
  startsWith (pathname req) "/static/" = true ->
  (forall bytes,
     files w !! ("." +:+ pathname req) = Some bytes ->
     Main.handler env req w
     = (Return
          (mkResponse 200
             [("Content-Type",
               if endsWith (pathname req) ".css" then "text/css" else "text/plain")]
             (BodyBytes bytes)),
        w)) /\
  (files w !! ("." +:+ pathname req) = None ->
   Main.handler env req w
   = (Return (mkResponse 404 [] (BodyText "Not Found")), w)).
Proof.
  intros _ Hp. rewrite route_static by exact Hp.
  unfold Main.serveStatic, try_catch, bind, readFile. split.
  - intros bytes ->. reflexivity.
  - intros ->. reflexivity.
Qed.

Lemma static_file_served_witness :
  Main.handler Sample.env1 (mkRequest "GET" "/static/style.css" None)
    (Server.init Sample.site)
  = (Return
       (mkResponse 200 [("Content-Type", "text/css")]
          (BodyBytes [Byte.x62; Byte.x7b; Byte.x7d])),
     Server.init Sample.site) /\
  Main.handler Sample.env1 (mkRequest "GET" "/static/submitSketch.js" None)
    (Server.init Sample.site)
  = (Return
       (mkResponse 200 [("Content-Type", "text/plain")]
          (BodyBytes [Byte.x2f; Byte.x2f])),
     Server.init Sample.site) /\
  Main.handler Sample.env1 (mkRequest "GET" "/static/missing.png" None)
    (Server.init Sample.site)
  = (Return (mkResponse 404 [] (BodyText "Not Found")),
     Server.init Sample.site).
Proof.
  split; [|split].
  - apply (static_file_served Sample.env1
             (mkRequest "GET" "/static/style.css" None)
             (Server.init Sample.site) eq_refl eq_refl).
    reflexivity.
  - apply (static_file_served Sample.env1
             (mkRequest "GET" "/static/submitSketch.js" None)
             (Server.init Sample.site) eq_refl eq_refl).
    reflexivity.
  - apply (static_file_served Sample.env1
             (mkRequest "GET" "/static/missing.png" None)
             (Server.init Sample.site) eq_refl eq_refl).
    reflexivity.
Defined.

(** ** The set of clients *)

Lemma has_true (c : Controller) (s : list Controller) :
  JsSet.has c s = true <-> c ∈ s.
Proof. unfold JsSet.has. apply bool_decide_eq_true. Qed.

Lemma has_false (c : Controller) (s : list Controller) :
  JsSet.has c s = false <-> c ∉ s.
Proof. unfold JsSet.has. apply bool_decide_eq_false. Qed.

Lemma elem_of_add (x c : Controller) (s : list Controller) :
  x ∈ JsSet.add c s <-> x = c \/ x ∈ s.
Proof.
  unfold JsSet.add. destruct (JsSet.has c s) eqn:H.
  - apply has_true in H. split; [auto|]. intros [->|]; assumption.
  - rewrite elem_of_app, list_elem_of_singleton. tauto.
Qed.

Lemma elem_of_delete (x c : Controller) (s : list Controller) :
  x ∈ JsSet.delete c s <-> x <> c /\ x ∈ s.
Proof.
  unfold JsSet.delete. rewrite !list_elem_of_In, List.filter_In.
  rewrite Bool.negb_true_iff, Nat.eqb_neq. tauto.
Qed.

Lemma add_idempotent (c : Controller) (s : list Controller) :
  JsSet.add c (JsSet.add c s) = JsSet.add c s.
Proof.
  unfold JsSet.add at 1.
  assert (H : JsSet.has c (JsSet.add c s) = true).
  { apply has_true, elem_of_add. by left. }
  rewrite H. reflexivity.
Qed.

Lemma add_NoDup (c : Controller) (s : list Controller) :
  NoDup s -> NoDup (JsSet.add c s).
Proof.
  intros H. unfold JsSet.add. destruct (JsSet.has c s) eqn:Hc; [exact H|].
  apply has_false in Hc. apply NoDup_app. split; [exact H|]. split.
  - intros x Hx Hx'. apply list_elem_of_singleton in Hx'. congruence.
  - apply NoDup_singleton.
Qed.

Lemma delete_absent (c : Controller) (s : list Controller) :
  c ∉ s -> JsSet.delete c s = s.
Proof.
  unfold JsSet.delete. induction s as [|x s IH]; intros H; simpl.
  - reflexivity.
  - apply not_elem_of_cons in H as [Hne Hs].
    destruct (Nat.eqb_spec x c) as [->|_]; [congruence|].
    simpl. f_equal. apply IH. exact Hs.
Qed.

Lemma delete_NoDup (c : Controller) (s : list Controller) :
  NoDup s -> NoDup (JsSet.delete c s).
Proof.
  unfold JsSet.delete. induction 1 as [|x s Hx Hs IH]; simpl.
  - constructor.
  - destruct (negb (x =? c)); [|exact IH]. constructor; [|exact IH].
    intros Hin. apply Hx. apply (elem_of_delete x c s) in Hin. tauto.
Qed.

Lemma start_world (c : Controller) (w : World) :
  snd (Sse.start c w)
  = with_sseClients (JsSet.add c)
      (with_streams
         (alter (fun s => mkStream (state s) (chunks s) (Some c)) c) w).
Proof. reflexivity. Qed.

Lemma start_twice (c : Controller) (w : World) :
  snd (Sse.start c (snd (Sse.start c w))) = snd (Sse.start c w).
Proof.
  rewrite !start_world. destruct w as [k s m n f].
  unfold with_sseClients, with_streams. simpl. f_equal.
  - apply add_idempotent.
  - apply map_eq. intros i. destruct (decide (c = i)) as [->|Hne].
    + rewrite !lookup_alter_eq. destruct (m !! i); reflexivity.
    + rewrite !lookup_alter_ne by exact Hne. reflexivity.
Qed.

(** C6: the clients form a set.  Registering a controller a second time
    changes nothing, so the set still holds it once and a broadcast enqueues
    one frame on it; as a set of handles, the clients after registering are
    the clients before plus that handle.  Unregistering a controller that is
    not in the set returns normally and leaves the state as it was. *)
Theorem sseClients_is_a_set (w : World) (c : Controller) :
  NoDup (sseClients w) ->
  let once := snd (Sse.start c w) in
  let twice := snd (Sse.start c once) in
  twice = once /\
  NoDup (sseClients twice) /\
  list_to_set (sseClients twice)
    =@{gset Controller} {[c]} ∪ list_to_set (sseClients w) /\
  (forall message,
     (forall c', c' ∈ sseClients twice -> is_readable twice c' = true) ->
     exists w',
       Sse.broadcastNewSketch message twice = (Return tt, w') /\
       received w' c = (received twice c ++ [Sse.frame message])%list) /\
  (forall self st q,
     c ∉ sseClients w ->
     streams w !! self = Some (mkStream st q (Some c)) ->
     Sse.cancel self w = (Return tt, w)) /\
  (c ∉ sseClients w -> JsSet.delete c (sseClients w) = sseClients w) /\
  list_to_set (JsSet.delete c (sseClients w))
    =@{gset Controller} list_to_set (sseClients w) ∖ {[c]}.
Proof.
  intros Hnd once twice.
  assert (Htwice : twice = once) by apply start_twice.
  assert (Hset : sseClients once = JsSet.add c (sseClients w)) by reflexivity.
  assert (Hnd1 : NoDup (sseClients once)).
  { rewrite Hset. apply add_NoDup. exact Hnd. }
  split; [exact Htwice|]. rewrite Htwice.
  split; [exact Hnd1|]. split; [|split; [|split; [|split]]].
  - rewrite Hset. apply set_eq. intros x.
    rewrite elem_of_union, elem_of_singleton, !elem_of_list_to_set.
    apply elem_of_add.
  - intros message Hr. eexists. rewrite broadcast_unfold.
    rewrite for_of_enqueue_readable by exact Hr. split; [reflexivity|].
    assert (Hin : c ∈ sseClients once).
    { rewrite Hset. apply elem_of_add. by left. }
    apply received_deliver_in; [exact Hnd1 | exact Hin | apply Hr, Hin].
  - intros self st q Hc Hs. unfold Sse.cancel. rewrite Hs. f_equal.
    destruct w as [k s m n f]. unfold with_sseClients. simpl in *.
    f_equal. apply delete_absent. exact Hc.
  - apply delete_absent.
  - apply set_eq. intros x.
    rewrite elem_of_difference, elem_of_singleton, !elem_of_list_to_set.
    rewrite elem_of_delete. tauto.
Qed.

Lemma sseClients_is_a_set_witness :
  let w := snd (Sse.handleSSE (snd (Sse.handleSSE Sample.empty))) in
  snd (Sse.start 1 (snd (Sse.start 1 w))) = snd (Sse.start 1 w) /\
  sseClients (snd (Sse.start 1 (snd (Sse.start 1 w)))) = [0; 1] /\
  JsSet.delete 7 (sseClients w) = sseClients w.
Proof.
  intros w.
  destruct (sseClients_is_a_set w 1 ltac:(compute_done))
    as (Htwice & _ & _ & _ & _ & _ & _).
  destruct (sseClients_is_a_set w 7 ltac:(compute_done))
    as (_ & _ & _ & _ & _ & Hdel & _).
  split; [exact Htwice|]. split; [reflexivity|].
  apply Hdel. compute_done.
Defined.

(** ** Every reachable state is consistent *)

Lemma for_of_enqueue_world (cs : list Controller) (chunk : string) (w w' : World)
  (o : Outcome unit) :
  for_of cs (fun c => Sse.enqueue c chunk) w = (o, w') ->
  exists cs', w' = with_streams (deliver chunk cs') w.
Proof.
  revert w. induction cs as [|x cs IH]; intros w H; simpl in H.
  - inversion H; subst. exists []. destruct w'; reflexivity.
  - unfold bind in H. destruct (is_readable w x) eqn:Hr.
    + rewrite enqueue_readable in H by exact Hr.
      apply IH in H as [cs' ->]. exists (x :: cs'). reflexivity.
    + rewrite enqueue_not_readable in H by exact Hr.
      inversion H; subst. exists []. destruct w'; reflexivity.
Qed.

Lemma lookup_deliver_Some (chunk : string) (cs : list Controller)
  (m : gmap Controller Stream) (c : Controller) (s : Stream) :
  deliver chunk cs m !! c = Some s ->
  exists s0, m !! c = Some s0 /\ state s = state s0 /\
             controllerRef s = controllerRef s0 /\
             (forall x, x ∈ chunks s -> x ∈ chunks s0 \/ x = chunk).
Proof.
  revert m s. induction cs as [|x cs IH]; intros m s H; simpl in H.
  - exists s. repeat split; auto.
  - apply IH in H as (s1 & H1 & Hst & Href & Hch).
    destruct (decide (x = c)) as [->|Hne].
    + rewrite lookup_alter_eq in H1.
      destruct (m !! c) as [s0|]; [|discriminate].
      injection H1 as <-. exists s0. simpl in *.
      repeat split; try assumption.
      intros y Hy. apply Hch in Hy as [Hy| ->]; [|by right].
      apply elem_of_app in Hy as [Hy|Hy]; [by left|].
      apply list_elem_of_singleton in Hy. by right.
    + rewrite lookup_alter_ne in H1 by exact Hne.
      exists s1. repeat split; assumption.
Qed.

Lemma consistent_init (fs : gmap string (list Byte.byte)) :
  Server.consistent (Server.init fs).
Proof.
  split; simpl.
  - constructor.
  - intros c Hc. by apply not_elem_of_nil in Hc.
  - intros c s Hs. rewrite lookup_empty in Hs. discriminate.
  - intros c s chunk Hs. rewrite lookup_empty in Hs. discriminate.
Qed.

Lemma consistent_deliver (w : World) (f : Kv.Store -> Kv.Store)
  (submission : Submission) (cs : list Controller) :
  Server.consistent w ->
  Server.consistent
    (with_streams
       (deliver (Sse.frame (JSON_stringify (json_of_submission submission))) cs)
       (with_kv f w)).
Proof.
  intros [Hnd Hr Hown Hfr]. split.
  - exact Hnd.
  - intros c Hc. rewrite is_readable_deliver. apply (Hr c Hc).
  - intros c s Hs. simpl in Hs.
    apply lookup_deliver_Some in Hs as (s0 & H0 & _ & Href & _).
    rewrite Href. apply (Hown c s0 H0).
  - intros c s chunk Hs Hin. simpl in Hs.
    apply lookup_deliver_Some in Hs as (s0 & H0 & _ & _ & Hch).
    apply Hch in Hin as [Hin| ->]; [|eauto].
    apply (Hfr c s0 chunk H0 Hin).
Qed.

Lemma handleSSE_world (w : World) :
  Sse.handleSSE w
  = (Return (mkResponse 200 Sse.sse_headers (BodyStream (next_controller w))),
     mkWorld (kv w) (JsSet.add (next_controller w) (sseClients w))
       (<[next_controller w := mkStream Readable [] (Some (next_controller w))]>
          (streams w))
       (S (next_controller w)) (files w)).
Proof.
  unfold Sse.handleSSE, bind, Sse.start, ret, with_sseClients, with_streams,
    with_next_controller. simpl. do 2 f_equal.
  apply map_eq. intros i. destruct (decide (next_controller w = i)) as [<-|Hne].
  - rewrite lookup_alter_eq, !lookup_insert_eq. reflexivity.
  - rewrite lookup_alter_ne, !lookup_insert_ne by exact Hne. reflexivity.
Qed.

Lemma fresh_not_registered (w : World) (c : Controller) :
  Server.consistent w -> (next_controller w <= c)%nat -> c ∉ sseClients w.
Proof.
  intros [_ Hr Hown _] Hle Hin. apply Hr, is_readable_spec in Hin as (q & r & Hs).
  apply Hown in Hs as [_ Hlt]. lia.
Qed.

Lemma consistent_handleSSE (w : World) :
  Server.consistent w -> Server.consistent (snd (Sse.handleSSE w)).
Proof.
  intros Hw. pose proof Hw as [Hnd Hr Hown Hfr]. rewrite handleSSE_world. simpl.
  split; simpl.
  - apply add_NoDup. exact Hnd.
  - intros c Hc. apply elem_of_add in Hc. unfold is_readable. simpl.
    destruct (decide (next_controller w = c)) as [<-|Hne].
    + rewrite lookup_insert_eq. reflexivity.
    + rewrite lookup_insert_ne by exact Hne.
      destruct Hc as [->|Hc]; [congruence|]. apply (Hr c Hc).
  - intros c s Hs. destruct (decide (next_controller w = c)) as [<-|Hne].
    + rewrite lookup_insert_eq in Hs. injection Hs as <-. simpl. split; [reflexivity|lia].
    + rewrite lookup_insert_ne in Hs by exact Hne.
      apply Hown in Hs as [? ?]. split; [assumption|lia].
  - intros c s chunk Hs Hin. destruct (decide (next_controller w = c)) as [<-|Hne].
    + rewrite lookup_insert_eq in Hs. injection Hs as <-. simpl in Hin.
      by apply not_elem_of_nil in Hin.
    + rewrite lookup_insert_ne in Hs by exact Hne. apply (Hfr c s chunk Hs Hin).
Qed.

Lemma cancel_world (w : World) (c : Controller) :
  Server.consistent w ->
  snd (Sse.ReadableStreamCancel c w)
  = if is_readable w c
    then with_sseClients (JsSet.delete c)
           (with_streams
              (alter (fun s => mkStream Closed (chunks s) (controllerRef s)) c) w)
    else w.
Proof.
  intros [_ _ Hown _]. unfold Sse.ReadableStreamCancel, is_readable.
  destruct (streams w !! c) as [[[] q r]|] eqn:Hs; try reflexivity.
  destruct (Hown c _ Hs) as [Href _]. simpl in Href. subst r.
  unfold Sse.cancel. simpl. rewrite lookup_insert_eq. simpl.
  unfold with_sseClients, with_streams. simpl. f_equal.
  apply map_eq. intros i. destruct (decide (c = i)) as [<-|Hne].
  - rewrite lookup_alter_eq, lookup_insert_eq, Hs. reflexivity.
  - rewrite lookup_alter_ne, lookup_insert_ne by exact Hne. reflexivity.
Qed.

Lemma consistent_cancel (w : World) (c : Controller) :
  Server.consistent w -> Server.consistent (snd (Sse.ReadableStreamCancel c w)).
Proof.
  intros Hw. rewrite cancel_world by exact Hw.
  destruct (is_readable w c) eqn:Hc; [|exact Hw].
  destruct Hw as [Hnd Hr Hown Hfr]. split; simpl.
  - apply delete_NoDup. exact Hnd.
  - intros x Hx. apply elem_of_delete in Hx as [Hne Hx].
    unfold is_readable. simpl. rewrite lookup_alter_ne by congruence.
    apply (Hr x Hx).
  - intros x s Hs. destruct (decide (c = x)) as [<-|Hne].
    + rewrite lookup_alter_eq in Hs.
      destruct (streams w !! c) as [s0|] eqn:H0; [|discriminate].
      injection Hs as <-. simpl. apply (Hown c s0 H0).
    + rewrite lookup_alter_ne in Hs by exact Hne. apply (Hown x s Hs).
  - intros x s chunk Hs Hin. destruct (decide (c = x)) as [<-|Hne].
    + rewrite lookup_alter_eq in Hs.
      destruct (streams w !! c) as [s0|] eqn:H0; [|discriminate].
      injection Hs as <-. simpl in Hin. apply (Hfr c s0 chunk H0 Hin).
    + rewrite lookup_alter_ne in Hs by exact Hne. apply (Hfr x s chunk Hs Hin).
Qed.

Lemma world_unchanged (w : World) (submission : Submission) :
  w = with_streams
        (deliver (Sse.frame (JSON_stringify (json_of_submission submission))) [])
        (with_kv (fun store => store) w).
Proof. destruct w; reflexivity. Qed.

(** The state after [handleSubmit]: possibly one more record, possibly one
    more frame on some of the streams, and nothing else. *)
Lemma handleSubmit_world (env : Env) (req : Request) (w : World) :
  exists f submission cs,
    snd (Main.handleSubmit env req w)
    = with_streams
        (deliver (Sse.frame (JSON_stringify (json_of_submission submission))) cs)
        (with_kv f w).
Proof.
  pose (nobody := mkSubmission "" "" JNull 0).
  assert (Hsame : forall o, Main.handleSubmit env req w = (o, w) ->
            exists f submission cs,
              snd (Main.handleSubmit env req w)
              = with_streams
                  (deliver (Sse.frame (JSON_stringify (json_of_submission submission))) cs)
                  (with_kv f w)).
  { intros o ->. exists (fun store => store), nobody, []. apply world_unchanged. }
  destruct (json req) as [data|] eqn:Hj.
  2: { eapply Hsame, handleSubmit_unparsable, Hj. }
  destruct (get data "embed") as [data_embed|ex] eqn:Hg.
  2: { destruct data; try discriminate Hg. eapply Hsame, handleSubmit_null, Hj. }
  destruct data_embed as [v|].
  2: { eapply Hsame, handleSubmit_invalid_embed; eauto. discriminate. }
  destruct (get_embed_object _ _ Hg) as [props ->].
  destruct v as [| b | n | e | items | ps];
    try (eapply Hsame, handleSubmit_invalid_embed; eauto;
         intros s' Heq; discriminate Heq).
  destruct (decide (e = "")) as [->|He].
  { eapply Hsame, handleSubmit_invalid_embed; eauto. intros s' Heq. congruence. }
  rewrite (handleSubmit_valid env req w _ e _ Hj Hg He
             (get_object_total props "creator")).
  destruct (kv_set_rejects env).
  { exists (fun store => store), nobody, []. apply world_unchanged. }
  set (submission := mkSubmission (uuid env) e _ (now env)).
  destruct (Sse.broadcastNewSketch _ _) as [o w'] eqn:Hb.
  rewrite broadcast_unfold in Hb. apply for_of_enqueue_world in Hb as [cs ->].
  exists (Kv.set ["iframe"; uuid env] submission), submission, cs.
  destruct o as [[]|ex]; reflexivity.
Qed.

Lemma try_readFile_world (path : string) (k : list Byte.byte -> M Response)
  (w : World) :
  (forall bytes, snd (k bytes w) = w) ->
  snd (try_catch (let* file := readFile path in k file)
                 (fun _ => ret not_found) w) = w.
Proof.
  intros Hk. unfold try_catch, bind, readFile.
  destruct (files w !! path) as [bytes|]; simpl; [|reflexivity].
  specialize (Hk bytes). destruct (k bytes w) as [[r|ex] w']; simpl in *; congruence.
Qed.

Lemma handler_world (env : Env) (req : Request) (w : World) :
  snd (Main.handler env req w) = snd (Sse.handleSSE w) \/
  exists f submission cs,
    snd (Main.handler env req w)
    = with_streams
        (deliver (Sse.frame (JSON_stringify (json_of_submission submission))) cs)
        (with_kv f w).
Proof.
  pose (nobody := mkSubmission "" "" JNull 0).
  unfold Main.handler.
  destruct (_ && _); [right; apply handleSubmit_world|].
  destruct (_ && _).
  { right. exists (fun store => store), nobody, []. apply world_unchanged. }
  destruct (_ && _); [left; reflexivity|].
  right. exists (fun store => store), nobody, [].
  rewrite <- world_unchanged.
  destruct (startsWith _ _).
  { unfold Main.serveStatic. apply try_readFile_world. reflexivity. }
  destruct (String.eqb _ _); [|reflexivity].
  unfold Main.serveIndex. apply try_readFile_world. reflexivity.
Qed.

Lemma consistent_step (w : World) (ev : Server.Event) :
  Server.consistent w -> Server.consistent (Server.step w ev).
Proof.
  intros Hw. destruct ev as [env req|c]; simpl.
  - destruct (handler_world env req w) as [->|(f & submission & cs & ->)].
    + apply consistent_handleSSE, Hw.
    + apply consistent_deliver, Hw.
  - apply consistent_cancel, Hw.
Qed.

Lemma consistent_steps (w : World) (evs : list Server.Event) :
  Server.consistent w -> Server.consistent (Server.steps w evs).
Proof.
  revert w. induction evs as [|ev evs IH]; intros w Hw; simpl.
  - exact Hw.
  - apply IH, consistent_step, Hw.
Qed.

Lemma consistent_reachable (fs : gmap string (list Byte.byte))
  (evs : list Server.Event) :
  Server.consistent (Server.steps (Server.init fs) evs).
Proof. apply consistent_steps, consistent_init. Qed.

(** ** Who enters and who leaves the set of clients *)

Lemma registered_true (w : World) (c : Controller) :
  Server.registered w c = true <-> c ∈ sseClients w.
Proof. apply has_true. Qed.

Lemma registered_false (w : World) (c : Controller) :
  Server.registered w c = false <-> c ∉ sseClients w.
Proof. apply has_false. Qed.

(** A step other than the disconnection of [c] keeps [c] registered. *)
Lemma step_keeps_registered (w : World) (ev : Server.Event) (c : Controller) :
  Server.consistent w -> ev <> Server.Disconnect c ->
  Server.registered w c = true ->
  Server.registered (Server.step w ev) c = true.
Proof.
  intros Hw Hev Hc. apply registered_true in Hc. apply registered_true.
  destruct ev as [env req|c']; simpl.
  - destruct (handler_world env req w) as [->|(f & submission & cs & ->)].
    + rewrite handleSSE_world. simpl. apply elem_of_add. by right.
    + exact Hc.
  - rewrite cancel_world by exact Hw.
    destruct (is_readable w c'); [|exact Hc]. simpl.
    apply elem_of_delete. split; [congruence|exact Hc].
Qed.

(** The disconnection of a registered [c] takes it out of the set. *)
Lemma cancel_takes_out (w : World) (c : Controller) :
  Server.consistent w ->
  Server.registered w c = true ->
  Server.registered (Server.step w (Server.Disconnect c)) c = false.
Proof.
  intros Hw Hc. apply registered_true in Hc. apply registered_false. simpl.
  rewrite cancel_world by exact Hw.
  rewrite (Server.clients_readable w Hw c Hc). simpl.
  intros Hin. apply elem_of_delete in Hin as [Hne _]. congruence.
Qed.

(** A controller that was handed out and is not registered stays out. *)
Lemma step_keeps_unregistered (w : World) (ev : Server.Event) (c : Controller) :
  Server.consistent w -> (c < next_controller w)%nat ->
  Server.registered w c = false ->
  Server.registered (Server.step w ev) c = false /\
  (c < next_controller (Server.step w ev))%nat.
Proof.
  intros Hw Hlt Hc. apply registered_false in Hc. rewrite registered_false.
  destruct ev as [env req|c']; simpl.
  - destruct (handler_world env req w) as [->|(f & submission & cs & ->)].
    + rewrite handleSSE_world. simpl. split; [|lia].
      intros Hin. apply elem_of_add in Hin as [->|Hin]; [lia|contradiction].
    + split; assumption.
  - rewrite cancel_world by exact Hw.
    destruct (is_readable w c'); [|split; assumption]. simpl.
    split; [|exact Hlt]. intros Hin. apply elem_of_delete in Hin as [_ Hin].
    contradiction.
Qed.

Lemma steps_app (w : World) (evs1 evs2 : list Server.Event) :
  Server.steps w (evs1 ++ evs2) = Server.steps (Server.steps w evs1) evs2.
Proof. apply List.fold_left_app. Qed.

Lemma unregistrations_cons (c : Controller) (w : World) (ev : Server.Event)
  (rest : list Server.Event) :
  Server.unregistrations c w (ev :: rest)
  = (if Server.registered w c && negb (Server.registered (Server.step w ev) c)
     then 1 else 0)
    + Server.unregistrations c (Server.step w ev) rest.
Proof. reflexivity. Qed.

Lemma registrations_cons (c : Controller) (w : World) (ev : Server.Event)
  (rest : list Server.Event) :
  Server.registrations c w (ev :: rest)
  = (if negb (Server.registered w c) && Server.registered (Server.step w ev) c
     then 1 else 0)
    + Server.registrations c (Server.step w ev) rest.
Proof. reflexivity. Qed.

Lemma unregistrations_app (c : Controller) (w : World)
  (evs1 evs2 : list Server.Event) :
  Server.unregistrations c w (evs1 ++ evs2)
  = Server.unregistrations c w evs1
    + Server.unregistrations c (Server.steps w evs1) evs2.
Proof.
  revert w. induction evs1 as [|ev evs1 IH]; intros w; simpl.
  - reflexivity.
  - rewrite IH. lia.
Qed.

Lemma registrations_app (c : Controller) (w : World)
  (evs1 evs2 : list Server.Event) :
  Server.registrations c w (evs1 ++ evs2)
  = Server.registrations c w evs1
    + Server.registrations c (Server.steps w evs1) evs2.
Proof.
  revert w. induction evs1 as [|ev evs1 IH]; intros w; simpl.
  - reflexivity.
  - rewrite IH. lia.
Qed.

(** As long as [c] is not disconnected it stays registered: nothing takes
    it out of the set and nothing has to put it back. *)
Lemma stays_registered (c : Controller) (evs : list Server.Event) (w : World) :
  Server.consistent w -> Server.registered w c = true ->
  Server.Disconnect c ∉ evs ->
  Server.registered (Server.steps w evs) c = true /\
  Server.unregistrations c w evs = 0 /\
  Server.registrations c w evs = 0.
Proof.
  revert w. induction evs as [|ev evs IH]; intros w Hw Hc Hev; simpl.
  - auto.
  - apply not_elem_of_cons in Hev as [Hne Hev].
    assert (Hc' : Server.registered (Server.step w ev) c = true).
    { apply step_keeps_registered; [exact Hw | congruence | exact Hc]. }
    destruct (IH _ (consistent_step w ev Hw) Hc' Hev) as (H1 & H2 & H3).
    rewrite Hc, Hc', H2, H3. simpl. auto.
Qed.

(** Once out of the set, [c] is never put back. *)
Lemma stays_unregistered (c : Controller) (evs : list Server.Event) (w : World) :
  Server.consistent w -> (c < next_controller w)%nat ->
  Server.registered w c = false ->
  Server.registered (Server.steps w evs) c = false /\
  Server.unregistrations c w evs = 0 /\
  Server.registrations c w evs = 0.
Proof.
  revert w. induction evs as [|ev evs IH]; intros w Hw Hlt Hc; simpl.
  - auto.
  - destruct (step_keeps_unregistered w ev c Hw Hlt Hc) as [Hc' Hlt'].
    destruct (IH _ (consistent_step w ev Hw) Hlt' Hc') as (H1 & H2 & H3).
    rewrite Hc, Hc', H2, H3. simpl. auto.
Qed.

(** ** Disconnection *)

(** C7: take any state the server can reach and let a [GET /events] create a
    connection there, with controller [c].  Whatever happens next, up to the
    first disconnection of [c] no step takes [c] out of the set; that
    disconnection takes it out; and it is out in every later state.  Over
    the whole run [c] leaves the set once and is never put back.  Nothing is
    assumed about messages: the run may contain no submission at all. *)
Theorem disconnect_unregisters_once
  (fs : gmap string (list Byte.byte)) (past : list Server.Event)
  (env : Env) (req : Request) (evs1 evs2 : list Server.Event) :
  method req = "GET" -> pathname req = "/events" ->
  let w0 := Server.steps (Server.init fs) past in
  let c := next_controller w0 in
  let w1 := Server.step w0 (Server.Incoming env req) in
  let trace := (evs1 ++ Server.Disconnect c :: evs2)%list in
  Server.Disconnect c ∉ evs1 ->
  fst (Main.handler env req w0)
  = Return (mkResponse 200 Sse.sse_headers (BodyStream c)) /\
  (forall evs, evs `prefix_of` evs1 ->
               Server.registered (Server.steps w1 evs) c = true) /\
  (forall evs, evs `prefix_of` evs2 ->
     Server.registered
       (Server.steps w1 (evs1 ++ Server.Disconnect c :: evs)) c = false) /\
  Server.unregistrations c w1 trace = 1 /\
  Server.registrations c w1 trace = 0.
Proof.
  intros Hm Hp w0 c w1 trace Hfirst.
  assert (Hw0 : Server.consistent w0) by apply consistent_reachable.
  assert (Hw1 : Server.consistent w1) by apply consistent_step, Hw0.
  assert (Hroute : Main.handler env req w0 = Sse.handleSSE w0).
  { rewrite route_events by assumption. reflexivity. }
  assert (Hworld : w1 = snd (Sse.handleSSE w0)).
  { unfold w1. simpl. rewrite Hroute. reflexivity. }
  rewrite handleSSE_world in Hworld. fold c in Hworld.
  assert (Hc1 : Server.registered w1 c = true).
  { apply registered_true. rewrite Hworld. simpl. apply elem_of_add. by left. }
  assert (Hlt : c < next_controller w1).
  { rewrite Hworld. simpl. lia. }
  split; [rewrite Hroute, handleSSE_world; reflexivity|].
  destruct (stays_registered c evs1 w1 Hw1 Hc1 Hfirst) as (Hreg & Hu1 & Hr1).
  set (w2 := Server.steps w1 evs1) in *.
  assert (Hw2 : Server.consistent w2) by apply consistent_steps, Hw1.
  set (w3 := Server.step w2 (Server.Disconnect c)).
  assert (Hw3 : Server.consistent w3) by apply consistent_step, Hw2.
  assert (Hc3 : Server.registered w3 c = false)
    by (apply cancel_takes_out; assumption).
  assert (Hlt3 : c < next_controller w3).
  { clear - Hw1 Hlt Hreg Hw2. unfold w3. simpl.
    rewrite cancel_world by exact Hw2.
    destruct (is_readable w2 c) eqn:Hr; simpl.
    - apply is_readable_spec in Hr as (q & r & Hs).
      apply (Server.streams_own w2 Hw2) in Hs. tauto.
    - apply registered_true in Hreg.
      apply (Server.clients_readable w2 Hw2) in Hreg. congruence. }
  split; [|split; [|split]].
  - intros evs [rest ->]. apply stays_registered; try assumption.
    intros Hin. apply Hfirst. apply elem_of_app. by left.
  - intros evs _. rewrite steps_app. fold w2.
    change (Server.steps w2 (Server.Disconnect c :: evs))
      with (Server.steps w3 evs).
    apply stays_unregistered; assumption.
  - unfold trace. rewrite unregistrations_app, Hu1. fold w2.
    rewrite unregistrations_cons. fold w3. rewrite Hreg, Hc3.
    destruct (stays_unregistered c evs2 w3 Hw3 Hlt3 Hc3) as (_ & -> & _).
    reflexivity.
  - unfold trace. rewrite registrations_app, Hr1. fold w2.
    rewrite registrations_cons. fold w3. rewrite Hreg, Hc3.
    destruct (stays_unregistered c evs2 w3 Hw3 Hlt3 Hc3) as (_ & _ & ->).
    reflexivity.
Qed.

Lemma disconnect_unregisters_once_witness :
  let w1 :=
    Server.step Sample.empty
      (Server.Incoming Sample.env1 (mkRequest "GET" "/events" None)) in
  let later :=
    [Server.Incoming Sample.env2 (Sample.post Sample.heart);
     Server.Disconnect 0;
     Server.Incoming Sample.env2 (mkRequest "GET" "/events" None)] in
  Server.registered w1 0 = true /\
  received w1 0 = [] /\
  Server.registered (Server.steps w1 (Server.Disconnect 0 :: later)) 0 = false /\
  Server.unregistrations 0 w1 (Server.Disconnect 0 :: later) = 1 /\
  Server.registrations 0 w1 (Server.Disconnect 0 :: later) = 0.
Proof.
  intros w1 later.
  destruct (disconnect_unregisters_once ∅ [] Sample.env1
              (mkRequest "GET" "/events" None) [] later eq_refl eq_refl)
    as (_ & Hbefore & Hafter & Hout & Hin).
  - apply not_elem_of_nil.
  - split; [apply (Hbefore []); reflexivity|]. split; [reflexivity|].
    split; [apply (Hafter later); reflexivity|]. split; [exact Hout|exact Hin].
Defined.

(** ** The event stream *)

(** C8: in any state the server can reach, [GET /events] is answered with
    status 200, the three headers [Content-Type: text/event-stream],
    [Cache-Control: no-cache], [Connection: keep-alive], and a stream as
    body, on which nothing has been written yet.  From then on, as long as
    the connection is registered, a broadcast of [message] writes on it one
    chunk, ["data: "] followed by [message] and two newline characters; an
    accepted submission writes that chunk with the JSON it returns; and no
    chunk of any other form is ever written on it. *)
Theorem events_stream_and_framing
  (fs : gmap string (list Byte.byte)) (past : list Server.Event)
  (env : Env) (req : Request) :
  method req = "GET" -> pathname req = "/events" ->
  let w0 := Server.steps (Server.init fs) past in
  let c := next_controller w0 in
  let w1 := Server.step w0 (Server.Incoming env req) in
  fst (Main.handler env req w0)
  = Return
      (mkResponse 200
         [("Content-Type", "text/event-stream");
          ("Cache-Control", "no-cache");
          ("Connection", "keep-alive")]
         (BodyStream c)) /\
  received w1 c = [] /\
  (forall evs message,
     Server.registered (Server.steps w1 evs) c = true ->
     exists w',
       Sse.broadcastNewSketch message (Server.steps w1 evs) = (Return tt, w') /\
       received w' c
       = (received (Server.steps w1 evs) c
          ++ ["data: " +:+ message +:+ LF +:+ LF])%list) /\
  (forall evs env' req' data e,
     Server.registered (Server.steps w1 evs) c = true ->
     method req' = "POST" -> pathname req' = "/submit" ->
     json req' = Some data ->
     get data "embed" = Return (Some (JStr e)) -> e <> "" ->
     kv_set_rejects env' = false ->
     exists payload w',
       Main.handler env' req' (Server.steps w1 evs)
       = (Return (mkResponse 201 json_headers (BodyText payload)), w') /\
       received w' c
       = (received (Server.steps w1 evs) c
          ++ ["data: " +:+ payload +:+ LF +:+ LF])%list) /\
  (forall evs chunk,
     chunk ∈ received (Server.steps w1 evs) c ->
     exists submission,
       chunk = "data: " +:+ JSON_stringify (json_of_submission submission)
               +:+ LF +:+ LF).
Proof.
  intros Hm Hp w0 c w1.
  assert (Hw0 : Server.consistent w0) by apply consistent_reachable.
  assert (Hw1 : Server.consistent w1) by apply consistent_step, Hw0.
  assert (Hroute : Main.handler env req w0 = Sse.handleSSE w0).
  { rewrite route_events by assumption. reflexivity. }
  assert (Hworld : w1 = snd (Sse.handleSSE w0)).
  { unfold w1. simpl. rewrite Hroute. reflexivity. }
  rewrite handleSSE_world in Hworld. fold c in Hworld. simpl in Hworld.
  split; [rewrite Hroute, handleSSE_world; reflexivity|].
  split.
  { rewrite Hworld. unfold received. simpl. rewrite lookup_insert_eq. reflexivity. }
  split; [|split].
  - intros evs message Hreg.
    set (w := Server.steps w1 evs) in *.
    assert (Hw : Server.consistent w) by apply consistent_steps, Hw1.
    apply registered_true in Hreg.
    eexists. rewrite broadcast_unfold.
    rewrite for_of_enqueue_readable by apply (Server.clients_readable w Hw).
    split; [reflexivity|].
    apply received_deliver_in;
      [apply (Server.clients_distinct w Hw) | exact Hreg
      | apply (Server.clients_readable w Hw c Hreg)].
  - intros evs env' req' data e Hreg Hm' Hp' Hj Hg He Hkv.
    set (w := Server.steps w1 evs) in *.
    assert (Hw : Server.consistent w) by apply consistent_steps, Hw1.
    apply registered_true in Hreg.
    rewrite route_submit by assumption.
    destruct (get_embed_object _ _ Hg) as [props ->].
    rewrite (handleSubmit_valid env' req' w _ e _ Hj Hg He
               (get_object_total props "creator")).
    rewrite Hkv, broadcast_unfold. simpl sseClients.
    rewrite for_of_enqueue_readable.
    2: { intros c' Hc'. apply (Server.clients_readable w Hw c' Hc'). }
    eexists _, _. split; [reflexivity|].
    apply (received_deliver_in _ (sseClients w)
             (with_kv _ w) c (Server.clients_distinct w Hw) Hreg).
    apply (Server.clients_readable w Hw c Hreg).
  - intros evs chunk Hin.
    set (w := Server.steps w1 evs) in *.
    assert (Hw : Server.consistent w) by apply consistent_steps, Hw1.
    unfold received in Hin. destruct (streams w !! c) as [s|] eqn:Hs.
    + apply (Server.chunks_framed w Hw c s chunk Hs Hin).
    + by apply not_elem_of_nil in Hin.
Qed.

Lemma events_stream_and_framing_witness :
  let w1 :=
    Server.step Sample.empty
      (Server.Incoming Sample.env1 (mkRequest "GET" "/events" None)) in
  fst (Main.handler Sample.env1 (mkRequest "GET" "/events" None) Sample.empty)
  = Return
      (mkResponse 200
         [("Content-Type", "text/event-stream");
          ("Cache-Control", "no-cache");
          ("Connection", "keep-alive")]
         (BodyStream 0)) /\
  exists w',
    Sse.broadcastNewSketch "{}" w1 = (Return tt, w') /\
    received w' 0 = ["data: {}" +:+ LF +:+ LF].
Proof.
  intros w1.
  destruct (events_stream_and_framing ∅ [] Sample.env1
              (mkRequest "GET" "/events" None) eq_refl eq_refl)
    as (Hresp & _ & Hsend & _).
  split; [exact Hresp|].
  destruct (Hsend [] "{}" eq_refl) as (w' & Hrun & Hrecv).
  exists w'. split; [exact Hrun|exact Hrecv].
Defined.

(** ** Listing *)

(** C3 at a failing input.  After two accepted submissions, the later of
    which has the greater id, the [handleList] that does not sort answers
    with the two records in the order of their keys, the older one first;
    the [handleList] that sorts answers with the newer one first. *)
Theorem unsorted_handleList_oldest_first :
  fst (Main2.handler Sample.env1 (Sample.post Sample.heart) Sample.empty)
  = Return (created Sample.first_record) /\
  fst (Main2.handler Sample.env2 (Sample.post (Sample.heart_by (JStr "pim")))
         (snd (Main2.handler Sample.env1 (Sample.post Sample.heart) Sample.empty)))
  = Return (created Sample.second_record) /\
  (timestamp Sample.first_record < timestamp Sample.second_record)%Z /\
  fst (Main2.handler Sample.env1 Sample.get_sketches Sample.two_posts)
  = Return
      (mkResponse 200 json_headers
         (submissions_body [Sample.first_record; Sample.second_record])) /\
  fst (Main.handler Sample.env1 Sample.get_sketches Sample.two_posts)
  = Return
      (mkResponse 200 json_headers
         (submissions_body [Sample.second_record; Sample.first_record])).
Proof.
  split; [vm_compute; reflexivity|]. split; [vm_compute; reflexivity|].
  split; [reflexivity|]. split; vm_compute; reflexivity.
Qed.

(** *** The sort *)





(** *** The store *)






(** *** After N accepted submissions *)

Lemma accepted_post_created (p : Env * Request) :
  accepted_post p ->
  exists submission,
    forall w, Server.consistent w ->
      Main.handler (fst p) (snd p) w
      = (Return (created submission),
         with_streams
           (deliver (Sse.frame (JSON_stringify (json_of_submission submission)))
                    (sseClients w))
           (with_kv (Kv.set ["iframe"; uuid (fst p)] submission) w)).
Proof.
  destruct p as [env req]. intros (Hm & Hp & Hkv & data & e & Hj & Hg & He).
  simpl in *. destruct (get_embed_object _ _ Hg) as [props ->].
  eexists. intros w Hw. rewrite route_submit by assumption.
  rewrite (handleSubmit_valid env req w _ e _ Hj Hg He
             (get_object_total props "creator")).
  rewrite Hkv, broadcast_unfold. simpl sseClients.
  rewrite for_of_enqueue_readable; [reflexivity|].
  intros c Hc. apply (Server.clients_readable w Hw c Hc).
Qed.





(** * Further properties *)

(** ** The router *)

Lemma try_readFile_returns (path : string) (k : list Byte.byte -> Response)
  (w : World) :
  exists resp,
    try_catch (let* file := readFile path in ret (k file))
              (fun _ => ret not_found) w = (Return resp, w).
Proof.
  unfold try_catch, bind, readFile, ret.
  destruct (files w !! path) as [bytes|]; eauto.
Qed.

(** [handleSubmit], [serveIndex] and [serveStatic] catch whatever they
    throw, and [handleSSE] and the 404 at the end throw nothing: for every
    request other than [GET /sketches] -- whose [handleList] has no [try]
    around its reading of the store -- both routers return a response. *)
Theorem handler_always_responds (env : Env) (req : Request) (w : World) :
  is_sketches req = false ->
  (exists resp w', Main.handler env req w = (Return resp, w')) /\
  (exists resp w', Main2.handler env req w = (Return resp, w')).
Proof.
  unfold is_sketches. intros Hsk. split.
  - unfold Main.handler. rewrite Hsk. clear Hsk.
    destruct (String.eqb (pathname req) "/submit" && String.eqb (method req) "POST");
      [apply handleSubmit_returns|].
    destruct (String.eqb (pathname req) "/events" && String.eqb (method req) "GET");
      [rewrite handleSSE_world; eauto|].
    destruct (startsWith (pathname req) "/static/").
    { destruct (try_readFile_returns ("." +:+ pathname req)
                  (fun file => mkResponse 200
                     [("Content-Type",
                       if endsWith (pathname req) ".css"
                       then "text/css" else "text/plain")] (BodyBytes file)) w)
        as [resp H].
      exists resp, w. exact H. }
    destruct (String.eqb (pathname req) "/"); [|unfold ret; eauto].
    destruct (try_readFile_returns "./index.html"
                (fun file => mkResponse 200 [("Content-Type", "text/html")]
                               (BodyBytes file)) w) as [resp H].
    exists resp, w. exact H.
  - unfold Main2.handler. rewrite Hsk. clear Hsk.
    destruct (String.eqb (pathname req) "/submit" && String.eqb (method req) "POST");
      [apply handleSubmit_returns|].
    destruct (String.eqb (pathname req) "/events" && String.eqb (method req) "GET");
      [rewrite handleSSE_world; eauto|].
    destruct (String.eqb (pathname req) "/"); [|unfold ret; eauto].
    destruct (try_readFile_returns "./index.html"
                (fun file => mkResponse 200 [("Content-Type", "text/html")]
                               (BodyBytes file)) w) as [resp H].
    exists resp, w. exact H.
Qed.

Lemma handler_always_responds_witness :
  (exists resp w',
     Main.handler Sample.env_kv_down (Sample.post Sample.heart) Sample.empty
     = (Return resp, w')) /\
  (exists resp w',
     Main2.handler Sample.env1 (mkRequest "GET" "/static/style.css" None)
       Sample.empty = (Return resp, w')).
Proof.
  split.
  - apply (handler_always_responds Sample.env_kv_down
             (Sample.post Sample.heart) Sample.empty eq_refl).
  - apply (handler_always_responds Sample.env1
             (mkRequest "GET" "/static/style.css" None) Sample.empty eq_refl).
Defined.

(** The routes test the method together with the path, and there is no
    answer of its own for a known path with another method: [/submit]
    without POST, and [/sketches] or [/events] without GET, fall through to
    404, in both routers, and change nothing. *)
Theorem wrong_method_not_found (env : Env) (req : Request) (w : World) :
  (pathname req = "/submit" /\ method req <> "POST") \/
  (pathname req = "/sketches" /\ method req <> "GET") \/
  (pathname req = "/events" /\ method req <> "GET") ->
  Main.handler env req w
  = (Return (mkResponse 404 [] (BodyText "Not Found")), w) /\
  Main2.handler env req w
  = (Return (mkResponse 404 [] (BodyText "Not Found")), w).
Proof.
  intros H. unfold Main.handler, Main2.handler.
  destruct H as [[Hp Hm]|[[Hp Hm]|[Hp Hm]]]; rewrite Hp;
    apply String.eqb_neq in Hm; rewrite Hm; simpl; split; reflexivity.
Qed.

Lemma wrong_method_not_found_witness :
  Main.handler Sample.env1 (mkRequest "GET" "/submit" (Some Sample.heart))
    Sample.stale
  = (Return (mkResponse 404 [] (BodyText "Not Found")), Sample.stale) /\
  Main2.handler Sample.env1 (mkRequest "DELETE" "/sketches" None) Sample.stale
  = (Return (mkResponse 404 [] (BodyText "Not Found")), Sample.stale).
Proof.
  split.
  - apply (wrong_method_not_found Sample.env1
             (mkRequest "GET" "/submit" (Some Sample.heart)) Sample.stale).
    left. split; [reflexivity|discriminate].
  - apply (wrong_method_not_found Sample.env1
             (mkRequest "DELETE" "/sketches" None) Sample.stale).
    right. left. split; [reflexivity|discriminate].
Defined.

(** The index route looks at the path only: whatever the method, [/] is
    answered with the bytes of [./index.html] as [text/html], or with 404
    when that file cannot be read; the state stays as it is. *)
Theorem index_served_for_any_method (env : Env) (req : Request) (w : World) :
  pathname req = "/" ->
  (forall bytes,
     files w !! "./index.html" = Some bytes ->
     Main.handler env req w
     = (Return (mkResponse 200 [("Content-Type", "text/html")] (BodyBytes bytes)),
        w) /\
     Main2.handler env req w
     = (Return (mkResponse 200 [("Content-Type", "text/html")] (BodyBytes bytes)),
        w)) /\
  (files w !! "./index.html" = None ->
   Main.handler env req w
   = (Return (mkResponse 404 [] (BodyText "Not Found")), w) /\
   Main2.handler env req w
   = (Return (mkResponse 404 [] (BodyText "Not Found")), w)).
Proof.
  intros Hp. unfold Main.handler, Main2.handler, Main2.serveIndex,
    Main.serveIndex, try_catch, bind, readFile.
  rewrite Hp. simpl. split.
  - intros bytes ->. split; reflexivity.
  - intros ->. split; reflexivity.
Qed.

Lemma index_served_for_any_method_witness :
  Main.handler Sample.env1 (mkRequest "POST" "/" None)
    (Server.init (<["./index.html" := [Byte.x3c; Byte.x70; Byte.x3e]]> Sample.site))
  = (Return
       (mkResponse 200 [("Content-Type", "text/html")]
          (BodyBytes [Byte.x3c; Byte.x70; Byte.x3e])),
     Server.init (<["./index.html" := [Byte.x3c; Byte.x70; Byte.x3e]]> Sample.site)) /\
  Main2.handler Sample.env1 (mkRequest "GET" "/" None) (Server.init Sample.site)
  = (Return (mkResponse 404 [] (BodyText "Not Found")), Server.init Sample.site).
Proof.
  split.
  - apply (index_served_for_any_method Sample.env1 (mkRequest "POST" "/" None)
             (Server.init
                (<["./index.html" := [Byte.x3c; Byte.x70; Byte.x3e]]> Sample.site))
             eq_refl).
    reflexivity.
  - apply (index_served_for_any_method Sample.env1 (mkRequest "GET" "/" None)
             (Server.init Sample.site) eq_refl).
    reflexivity.
Defined.

(** Only [POST /submit] and [GET /events] change the state of the server:
    every other request, to either router, leaves the store, the clients,
    their streams and the files as they were. *)
Theorem other_requests_change_nothing (env : Env) (req : Request) (w : World) :
  is_submit req = false -> is_events req = false ->
  snd (Main.handler env req w) = w /\ snd (Main2.handler env req w) = w.
Proof.
  unfold is_submit, is_events. intros Hs He.
  unfold Main.handler, Main2.handler. rewrite Hs, He. clear Hs He.
  destruct (String.eqb (pathname req) "/sketches" && String.eqb (method req) "GET");
    [split; reflexivity|].
  split.
  - destruct (startsWith (pathname req) "/static/").
    { unfold Main.serveStatic. apply try_readFile_world. reflexivity. }
    destruct (String.eqb (pathname req) "/"); [|reflexivity].
    unfold Main.serveIndex. apply try_readFile_world. reflexivity.
  - destruct (String.eqb (pathname req) "/"); [|reflexivity].
    unfold Main2.serveIndex, Main.serveIndex.
    apply try_readFile_world. reflexivity.
Qed.

Lemma other_requests_change_nothing_witness :
  snd (Main.handler Sample.env1 Sample.get_sketches Sample.two_posts)
  = Sample.two_posts /\
  snd (Main2.handler Sample.env1 (mkRequest "PUT" "/static/style.css" None)
         Sample.stale) = Sample.stale.
Proof.
  split.
  - apply (other_requests_change_nothing Sample.env1 Sample.get_sketches
             Sample.two_posts eq_refl eq_refl).
  - apply (other_requests_change_nothing Sample.env1
             (mkRequest "PUT" "/static/style.css" None) Sample.stale
             eq_refl eq_refl).
Defined.

(** *** [startsWith] and [endsWith] *)

Lemma startsWith_spec (s p : string) :
  startsWith s p = true <-> exists rest, s = p +:+ rest.
Proof.
  unfold startsWith. revert s. induction p as [|a p IH]; intros s; simpl.
  - destruct s; split; eauto.
  - destruct s as [|b s]; simpl.
    + split; [discriminate|]. intros [rest H]. discriminate H.
    + destruct (ascii_dec a b) as [->|Hne].
      * rewrite IH. split; intros [rest H]; exists rest.
        -- by rewrite H.
        -- by injection H.
      * split; [discriminate|]. intros [rest H]. injection H as H1 H2.
        congruence.
Qed.

Lemma string_length_app (a b : string) :
  String.length (a +:+ b) = String.length a + String.length b.
Proof. induction a as [|c a IH]; simpl; [reflexivity|]. by rewrite IH. Qed.

Lemma substring_all (s : string) : String.substring 0 (String.length s) s = s.
Proof. induction s as [|c s IH]; simpl; [reflexivity|]. by rewrite IH. Qed.

Lemma substring_skip (p s : string) (m : nat) :
  String.substring (String.length p) m (p +:+ s) = String.substring 0 m s.
Proof. induction p as [|c p IH]; simpl; [reflexivity|]. exact IH. Qed.

Lemma substring_split (s : string) (k : nat) :
  k <= String.length s ->
  s = String.substring 0 k s +:+ String.substring k (String.length s - k) s.
Proof.
  revert k. induction s as [|c s IH]; intros k Hk; simpl in *.
  - assert (k = 0) as -> by lia. reflexivity.
  - destruct k as [|k]; simpl.
    + by rewrite substring_all.
    + change (String c s
              = String c (String.substring 0 k s
                          +:+ String.substring k (String.length s - k) s)).
      f_equal. apply IH. lia.
Qed.

Lemma endsWith_spec (s suffix : string) :
  endsWith s suffix = true <-> exists stem, s = stem +:+ suffix.
Proof.
  unfold endsWith. rewrite andb_true_iff, Nat.leb_le, String.eqb_eq. split.
  - intros [Hle Hsub].
    exists (String.substring 0 (String.length s - String.length suffix) s).
    pose proof (substring_split s (String.length s - String.length suffix)
                  ltac:(lia)) as Hsplit.
    replace (String.length s - (String.length s - String.length suffix))
      with (String.length suffix) in Hsplit by lia.
    rewrite Hsub in Hsplit. exact Hsplit.
  - intros [stem ->]. rewrite string_length_app. split; [lia|].
    replace (String.length stem + String.length suffix - String.length suffix)
      with (String.length stem) by lia.
    rewrite substring_skip. apply substring_all.
Qed.

(** For a file that can be read, [serveStatic] answers [text/css] exactly
    when the path is some stem followed by [.css], and [text/plain] for
    every other path under [/static/]: no other type is ever sent. *)
Theorem static_css_exactly_for_css_suffix
  (env : Env) (req : Request) (w : World) (bytes : list Byte.byte) :
  startsWith (pathname req) "/static/" = true ->
  files w !! ("." +:+ pathname req) = Some bytes ->
  exists contentType,
    Main.handler env req w
    = (Return (mkResponse 200 [("Content-Type", contentType)] (BodyBytes bytes)),
       w) /\
    (exists rest, pathname req = "/static/" +:+ rest) /\
    (contentType = "text/css" <-> exists stem, pathname req = stem +:+ ".css") /\
    (contentType = "text/plain" <->
     ~ exists stem, pathname req = stem +:+ ".css").
Proof.
  intros Hp Hf. rewrite route_static by exact Hp.
  unfold Main.serveStatic, try_catch, bind, readFile. rewrite Hf. simpl.
  eexists. split; [reflexivity|].
  split; [apply startsWith_spec, Hp|].
  rewrite <- endsWith_spec.
  destruct (endsWith (pathname req) ".css"); split; split; intros H;
    try reflexivity; try discriminate; try congruence;
    exfalso; apply H; reflexivity.
Qed.

Lemma static_css_exactly_for_css_suffix_witness :
  exists contentType,
    Main.handler Sample.env1 (mkRequest "GET" "/static/submitSketch.js" None)
      (Server.init Sample.site)
    = (Return
         (mkResponse 200 [("Content-Type", contentType)]
            (BodyBytes [Byte.x2f; Byte.x2f])),
       Server.init Sample.site) /\
    contentType = "text/plain".
Proof.
  destruct (static_css_exactly_for_css_suffix Sample.env1
              (mkRequest "GET" "/static/submitSketch.js" None)
              (Server.init Sample.site) [Byte.x2f; Byte.x2f] eq_refl eq_refl)
    as (contentType & Hrun & _ & _ & Hplain).
  exists contentType. split; [exact Hrun|].
  injection Hrun as <-. reflexivity.
Defined.

(** *** The two routers *)

(** Outside [/static/] and [GET /sketches] the two texts of [main.ts] give
    the same answer and leave the same state. *)
Theorem routers_agree_elsewhere (env : Env) (req : Request) (w : World) :
  startsWith (pathname req) "/static/" = false ->
  is_sketches req = false ->
  Main2.handler env req w = Main.handler env req w.
Proof.
  unfold is_sketches. intros Hst Hsk.
  unfold Main.handler, Main2.handler. rewrite Hst, Hsk. reflexivity.
Qed.

Lemma routers_agree_elsewhere_witness :
  Main2.handler Sample.env1 (Sample.post Sample.heart) Sample.stale
  = Main.handler Sample.env1 (Sample.post Sample.heart) Sample.stale.
Proof.
  apply (routers_agree_elsewhere Sample.env1 (Sample.post Sample.heart)
           Sample.stale eq_refl eq_refl).
Defined.

(** The second text has no static route: a path under [/static/] is
    answered 404 there even when the first text serves the file. *)
Theorem second_router_has_no_static
  (env : Env) (req : Request) (w : World) (bytes : list Byte.byte) :
  startsWith (pathname req) "/static/" = true ->
  files w !! ("." +:+ pathname req) = Some bytes ->
  Main2.handler env req w
  = (Return (mkResponse 404 [] (BodyText "Not Found")), w) /\
  exists contentType,
    Main.handler env req w
    = (Return (mkResponse 200 [("Content-Type", contentType)] (BodyBytes bytes)),
       w).
Proof.
  intros Hp Hf. split.
  - unfold Main2.handler.
    assert (Hne : forall p, startsWith p "/static/" = false ->
                            String.eqb (pathname req) p = false).
    { intros p Hfalse. destruct (String.eqb_spec (pathname req) p) as [Heq|];
        [|reflexivity]. rewrite Heq in Hp. congruence. }
    rewrite !Hne by reflexivity. reflexivity.
  - rewrite route_static by exact Hp.
    unfold Main.serveStatic, try_catch, bind, readFile. rewrite Hf. simpl. eauto.
Qed.

Lemma second_router_has_no_static_witness :
  Main2.handler Sample.env1 (mkRequest "GET" "/static/style.css" None)
    (Server.init Sample.site)
  = (Return (mkResponse 404 [] (BodyText "Not Found")), Server.init Sample.site).
Proof.
  apply (second_router_has_no_static Sample.env1
           (mkRequest "GET" "/static/style.css" None) (Server.init Sample.site)
           [Byte.x62; Byte.x7b; Byte.x7d] eq_refl eq_refl).
Defined.

(** ** The store and the two listings *)








Lemma string_compare_refl (s : string) : String.compare s s = Eq.
Proof.
  induction s as [|c s IH]; simpl; [reflexivity|].
  assert (Hc : Ascii.compare c c = Eq).
  { unfold Ascii.compare. apply N.compare_refl. }
  rewrite Hc. exact IH.
Qed.

Lemma kv_compare_refl (k : Kv.Key) : Kv.compare k k = Eq.
Proof.
  induction k as [|p k IH]; simpl; [reflexivity|].
  rewrite string_compare_refl. exact IH.
Qed.

Lemma kv_set_overwrites (key : Kv.Key) (v1 v2 : Submission) (store : Kv.Store) :
  Kv.set key v2 (Kv.set key v1 store) = Kv.set key v2 store.
Proof.
  induction store as [|[k v] rest IH]; simpl.
  - rewrite kv_compare_refl. reflexivity.
  - destruct (Kv.compare key k) eqn:Hc; simpl.
    + rewrite kv_compare_refl. reflexivity.
    + rewrite kv_compare_refl. reflexivity.
    + rewrite Hc. f_equal. exact IH.
Qed.

(** The store is keyed by the id alone, and nothing checks that an id is
    new: if two accepted submissions get the same UUID, the second replaces
    the first, and the store ends as if the first had never been made. *)
Theorem repeated_uuid_overwrites (w : World) (p1 p2 : Env * Request) :
  Server.consistent w ->
  accepted_post p1 -> accepted_post p2 ->
  uuid (fst p1) = uuid (fst p2) ->
  kv (submit_all w [p1; p2]) = kv (submit_all w [p2]).
Proof.
  intros Hw H1 H2 Hu.
  destruct (accepted_post_created p1 H1) as [s1 Hrun1].
  destruct (accepted_post_created p2 H2) as [s2 Hrun2].
  unfold submit_all. simpl.
  assert (Hw1 : Server.consistent (snd (Main.handler (fst p1) (snd p1) w))).
  { apply (consistent_step w (Server.Incoming (fst p1) (snd p1)) Hw). }
  rewrite (Hrun2 _ Hw1), (Hrun2 w Hw), (Hrun1 w Hw). simpl.
  rewrite Hu. apply kv_set_overwrites.
Qed.

Lemma repeated_uuid_overwrites_witness :
  kv (submit_all Sample.empty
        [(Sample.env1, Sample.post Sample.heart);
         (Sample.env1, Sample.post (Sample.heart_by (JStr "pim")))])
  = kv (submit_all Sample.empty
          [(Sample.env1, Sample.post (Sample.heart_by (JStr "pim")))]).
Proof.
  apply (repeated_uuid_overwrites Sample.empty
           (Sample.env1, Sample.post Sample.heart)
           (Sample.env1, Sample.post (Sample.heart_by (JStr "pim")))).
  - apply consistent_init.
  - repeat split. eexists _, _.
    split; [reflexivity|]. split; [reflexivity|discriminate].
  - repeat split. eexists _, _.
    split; [reflexivity|]. split; [reflexivity|discriminate].
  - reflexivity.
Defined.

(** ** What a step does to the state *)

Lemma for_of_enqueue_sub (cs : list Controller) (chunk : string) (w w' : World)
  (o : Outcome unit) :
  for_of cs (fun c => Sse.enqueue c chunk) w = (o, w') ->
  exists cs', (forall c, c ∈ cs' -> c ∈ cs) /\
              w' = with_streams (deliver chunk cs') w.
Proof.
  revert w. induction cs as [|x cs IH]; intros w H; simpl in H.
  - inversion H; subst. exists []. split; [|destruct w'; reflexivity].
    intros c Hc. by apply not_elem_of_nil in Hc.
  - unfold bind in H. destruct (is_readable w x) eqn:Hr.
    + rewrite enqueue_readable in H by exact Hr.
      apply IH in H as (cs' & Hsub & ->). exists (x :: cs'). split; [|reflexivity].
      intros c Hc. apply elem_of_cons in Hc as [->|Hc]; [by left|].
      right. apply Hsub, Hc.
    + rewrite enqueue_not_readable in H by exact Hr.
      inversion H; subst. exists []. split; [|destruct w'; reflexivity].
      intros c Hc. by apply not_elem_of_nil in Hc.
Qed.

(** [handleSubmit] either leaves the state alone or writes one record under
    the key of its own id and enqueues its frame on some of the clients. *)
Lemma handleSubmit_effect (env : Env) (req : Request) (w : World) :
  snd (Main.handleSubmit env req w) = w \/
  exists submission cs,
    id submission = uuid env /\
    (forall c, c ∈ cs -> c ∈ sseClients w) /\
    snd (Main.handleSubmit env req w)
    = with_streams
        (deliver (Sse.frame (JSON_stringify (json_of_submission submission))) cs)
        (with_kv (Kv.set ["iframe"; id submission] submission) w).
Proof.
  destruct (json req) as [data|] eqn:Hj.
  2: { left. by rewrite handleSubmit_unparsable. }
  destruct (get data "embed") as [data_embed|ex] eqn:Hg.
  2: { destruct data; try discriminate Hg. left. by rewrite handleSubmit_null. }
  assert (Hbad : (forall s, data_embed = Some (JStr s) -> s = "") ->
                 snd (Main.handleSubmit env req w) = w).
  { intros Hs. by erewrite handleSubmit_invalid_embed. }
  destruct data_embed as [v|]; [|left; apply Hbad; discriminate].
  destruct (get_embed_object _ _ Hg) as [props ->].
  destruct v as [| b | n | e | items | ps];
    try (left; apply Hbad; intros s' Heq; discriminate Heq).
  destruct (decide (e = "")) as [->|He].
  { left. apply Hbad. intros s' Heq. congruence. }
  rewrite (handleSubmit_valid env req w _ e _ Hj Hg He
             (get_object_total props "creator")).
  destruct (kv_set_rejects env); [left; reflexivity|].
  set (submission := mkSubmission (uuid env) e _ (now env)).
  destruct (Sse.broadcastNewSketch _ _) as [o w'] eqn:Hb.
  rewrite broadcast_unfold in Hb.
  apply for_of_enqueue_sub in Hb as (cs & Hsub & ->).
  right. exists submission, cs. split; [reflexivity|]. split; [exact Hsub|].
  destruct o as [[]|ex]; reflexivity.
Qed.

Lemma quiet_route (env : Env) (req : Request) (w : World) :
  is_submit req = false -> is_events req = false ->
  snd (Main.handler env req w) = w.
Proof.
  unfold is_submit, is_events. intros Hs He.
  unfold Main.handler. rewrite Hs, He. clear Hs He.
  destruct (String.eqb (pathname req) "/sketches" && String.eqb (method req) "GET");
    [reflexivity|].
  destruct (startsWith (pathname req) "/static/").
  { unfold Main.serveStatic. apply try_readFile_world. reflexivity. }
  destruct (String.eqb (pathname req) "/"); [|reflexivity].
  unfold Main.serveIndex. apply try_readFile_world. reflexivity.
Qed.

Lemma handler_effect (env : Env) (req : Request) (w : World) :
  snd (Main.handler env req w) = w \/
  snd (Main.handler env req w) = snd (Sse.handleSSE w) \/
  exists submission cs,
    id submission = uuid env /\
    (forall c, c ∈ cs -> c ∈ sseClients w) /\
    snd (Main.handler env req w)
    = with_streams
        (deliver (Sse.frame (JSON_stringify (json_of_submission submission))) cs)
        (with_kv (Kv.set ["iframe"; id submission] submission) w).
Proof.
  destruct (is_submit req) eqn:Hs.
  - unfold Main.handler. unfold is_submit in Hs. rewrite Hs.
    destruct (handleSubmit_effect env req w) as [H|H]; [by left|right; by right].
  - destruct (is_events req) eqn:He.
    + right. left. unfold Main.handler. unfold is_submit in Hs.
      unfold is_events in He. rewrite Hs.
      destruct (String.eqb (pathname req) "/sketches"
                && String.eqb (method req) "GET") eqn:Hsk.
      * apply andb_true_iff in Hsk as [Hsk _]. apply andb_true_iff in He as [He _].
        apply String.eqb_eq in Hsk, He. congruence.
      * rewrite He. reflexivity.
    + left. apply quiet_route; assumption.
Qed.

Lemma cancel_keeps (w : World) (controller : Controller) :
  Server.consistent w ->
  kv (snd (Sse.ReadableStreamCancel controller w)) = kv w /\
  next_controller (snd (Sse.ReadableStreamCancel controller w))
  = next_controller w /\
  forall c, received (snd (Sse.ReadableStreamCancel controller w)) c = received w c.
Proof.
  intros Hw. rewrite cancel_world by exact Hw.
  destruct (is_readable w controller); [|auto].
  split; [reflexivity|]. split; [reflexivity|].
  intros c. unfold received. simpl.
  destruct (decide (controller = c)) as [<-|Hne].
  - rewrite lookup_alter_eq. destruct (streams w !! controller); reflexivity.
  - rewrite lookup_alter_ne by exact Hne. reflexivity.
Qed.

Lemma step_next_mono (w : World) (ev : Server.Event) :
  Server.consistent w ->
  next_controller w <= next_controller (Server.step w ev).
Proof.
  intros Hw. destruct ev as [env req|c]; simpl.
  - destruct (handler_effect env req w) as [->|[->|(s0 & cs & _ & _ & ->)]].
    + lia.
    + rewrite handleSSE_world. simpl. lia.
    + simpl. lia.
  - destruct (cancel_keeps w c Hw) as (_ & -> & _). lia.
Qed.

Lemma steps_next_mono (evs : list Server.Event) (w : World) :
  Server.consistent w ->
  next_controller w <= next_controller (Server.steps w evs).
Proof.
  revert w. induction evs as [|ev evs IH]; intros w Hw; simpl; [lia|].
  pose proof (step_next_mono w ev Hw).
  pose proof (IH _ (consistent_step w ev Hw)). lia.
Qed.

(** ** The store in every reachable state *)



(** ** Connections over a run *)

(** No two connections share a controller: after a [GET /events] has made
    the controller [c], and whatever happened since, a later [GET /events]
    makes a different one, which no stream used and no client held before;
    it is registered and nothing is yet written on it. *)
Theorem fresh_controller_each_connection
  (fs : gmap string (list Byte.byte)) (past : list Server.Event)
  (env : Env) (req : Request) (evs : list Server.Event)
  (env' : Env) (req' : Request) :
  method req = "GET" -> pathname req = "/events" ->
  method req' = "GET" -> pathname req' = "/events" ->
  let w0 := Server.steps (Server.init fs) past in
  let c := next_controller w0 in
  let w2 := Server.steps (Server.step w0 (Server.Incoming env req)) evs in
  let c' := next_controller w2 in
  fst (Main.handler env req w0)
  = Return (mkResponse 200 Sse.sse_headers (BodyStream c)) /\
  fst (Main.handler env' req' w2)
  = Return (mkResponse 200 Sse.sse_headers (BodyStream c')) /\
  c < c' /\
  Server.registered w2 c' = false /\
  streams w2 !! c' = None /\
  Server.registered (Server.step w2 (Server.Incoming env' req')) c' = true /\
  received (Server.step w2 (Server.Incoming env' req')) c' = [].
Proof.
  intros Hm Hp Hm' Hp' w0 c w2 c'.
  assert (Hw0 : Server.consistent w0) by apply consistent_reachable.
  set (w1 := Server.step w0 (Server.Incoming env req)) in *.
  assert (Hw1 : Server.consistent w1) by apply consistent_step, Hw0.
  assert (Hw2 : Server.consistent w2) by apply consistent_steps, Hw1.
  assert (H1 : next_controller w1 = S c).
  { unfold w1. simpl. rewrite route_events by assumption.
    rewrite handleSSE_world. reflexivity. }
  pose proof (steps_next_mono evs w1 Hw1) as Hmono. fold w2 in Hmono.
  split; [rewrite route_events by assumption; rewrite handleSSE_world; reflexivity|].
  split; [rewrite route_events by assumption; rewrite handleSSE_world; reflexivity|].
  split; [unfold c'; lia|].
  split; [apply registered_false, fresh_not_registered; [exact Hw2|unfold c'; lia]|].
  split.
  { destruct (streams w2 !! c') as [s0|] eqn:Hs; [|reflexivity].
    apply (Server.streams_own w2 Hw2) in Hs as [_ Hlt]. unfold c' in Hlt. lia. }
  simpl. rewrite route_events by assumption. rewrite handleSSE_world. simpl.
  split.
  - apply registered_true. simpl. apply elem_of_add. by left.
  - unfold received. simpl. rewrite lookup_insert_eq. reflexivity.
Qed.

Lemma fresh_controller_each_connection_witness :
  let events := mkRequest "GET" "/events" None in
  let w2 :=
    Server.steps (Server.step Sample.empty (Server.Incoming Sample.env1 events))
      [Server.Disconnect 0;
       Server.Incoming Sample.env2 (Sample.post Sample.heart)] in
  fst (Main.handler Sample.env1 events Sample.empty)
  = Return (mkResponse 200 Sse.sse_headers (BodyStream 0)) /\
  fst (Main.handler Sample.env2 events w2)
  = Return (mkResponse 200 Sse.sse_headers (BodyStream 1)).
Proof.
  intros events w2.
  destruct (fresh_controller_each_connection ∅ [] Sample.env1 events
              [Server.Disconnect 0;
               Server.Incoming Sample.env2 (Sample.post Sample.heart)]
              Sample.env2 events eq_refl eq_refl eq_refl eq_refl)
    as (H1 & H2 & _).
  split; [exact H1|exact H2].
Defined.

(** In every state the server reaches, an accepted submission is answered
    201: the broadcast does not throw there.  It enqueues its frame once on
    each registered connection and on no other, and leaves the set of
    clients as it was. *)
Theorem submission_fans_out
  (fs : gmap string (list Byte.byte)) (evs : list Server.Event)
  (p : Env * Request) :
  accepted_post p ->
  let w := Server.steps (Server.init fs) evs in
  exists submission w',
    Main.handler (fst p) (snd p) w = (Return (created submission), w') /\
    sseClients w' = sseClients w /\
    forall c,
      received w' c
      = if Server.registered w c
        then (received w c
              ++ [Sse.frame (JSON_stringify (json_of_submission submission))])%list
        else received w c.
Proof.
  intros Hp w.
  assert (Hw : Server.consistent w) by apply consistent_reachable.
  destruct (accepted_post_created p Hp) as [submission Hrun].
  exists submission. eexists. split; [apply (Hrun w Hw)|].
  split; [reflexivity|]. intros c.
  destruct (Server.registered w c) eqn:Hc.
  - apply registered_true in Hc.
    apply (received_deliver_in _ (sseClients w) (with_kv _ w) c).
    + apply (Server.clients_distinct w Hw).
    + exact Hc.
    + apply (Server.clients_readable w Hw c Hc).
  - apply registered_false in Hc.
    apply (received_deliver_notin _ (sseClients w) (with_kv _ w) c Hc).
Qed.

Lemma submission_fans_out_witness :
  let events := mkRequest "GET" "/events" None in
  let w :=
    Server.steps Sample.empty
      [Server.Incoming Sample.env1 events;
       Server.Incoming Sample.env1 events;
       Server.Disconnect 0] in
  exists submission w',
    Main.handler Sample.env2 (Sample.post Sample.heart) w
    = (Return (created submission), w') /\
    received w' 0 = [] /\
    received w' 1 = [Sse.frame (JSON_stringify (json_of_submission submission))].
Proof.
  intros events w.
  destruct (submission_fans_out ∅
              [Server.Incoming Sample.env1 events;
               Server.Incoming Sample.env1 events;
               Server.Disconnect 0]
              (Sample.env2, Sample.post Sample.heart))
    as (submission & w' & Hrun & _ & Hrecv).
  - repeat split. eexists _, _.
    split; [reflexivity|]. split; [reflexivity|discriminate].
  - exists submission, w'. split; [exact Hrun|].
    split; [apply (Hrecv 0)|apply (Hrecv 1)].
Defined.

Lemma step_received_unregistered (w : World) (ev : Server.Event) (c : Controller) :
  Server.consistent w -> c < next_controller w ->
  Server.registered w c = false ->
  received (Server.step w ev) c = received w c.
Proof.
  intros Hw Hlt Hc. apply registered_false in Hc.
  destruct ev as [env req|c']; simpl.
  - destruct (handler_effect env req w) as [->|[->|(s0 & cs & _ & Hsub & ->)]].
    + reflexivity.
    + rewrite handleSSE_world. unfold received. simpl.
      rewrite lookup_insert_ne by lia. reflexivity.
    + apply (received_deliver_notin _ cs (with_kv _ w) c).
      intros Hin. apply Hc, Hsub, Hin.
  - apply cancel_keeps, Hw.
Qed.

(** A connection that has left the set receives nothing more: whatever the
    server does afterwards, the chunks written on its stream stay the
    ones written while it was registered. *)
Theorem closed_connection_receives_nothing
  (fs : gmap string (list Byte.byte)) (past : list Server.Event)
  (c : Controller) (evs : list Server.Event) :
  let w := Server.steps (Server.init fs) past in
  c < next_controller w ->
  Server.registered w c = false ->
  received (Server.steps w evs) c = received w c.
Proof.
  intros w. assert (Hw : Server.consistent w) by apply consistent_reachable.
  clearbody w. revert w Hw. induction evs as [|ev evs IH]; intros w Hw Hlt Hc; simpl.
  - reflexivity.
  - destruct (step_keeps_unregistered w ev c Hw Hlt Hc) as [Hc' Hlt'].
    rewrite (IH _ (consistent_step w ev Hw) Hlt' Hc').
    apply step_received_unregistered; assumption.
Qed.

Lemma closed_connection_receives_nothing_witness :
  let events := mkRequest "GET" "/events" None in
  let w :=
    Server.steps Sample.empty
      [Server.Incoming Sample.env1 events;
       Server.Incoming Sample.env1 (Sample.post Sample.heart);
       Server.Disconnect 0] in
  received
    (Server.steps w
       [Server.Incoming Sample.env2 (Sample.post Sample.heart);
        Server.Incoming Sample.env2 events])
    0
  = received w 0 /\
  length (received w 0) = 1.
Proof.
  intros events w. split; [|reflexivity].
  apply (closed_connection_receives_nothing ∅
           [Server.Incoming Sample.env1 events;
            Server.Incoming Sample.env1 (Sample.post Sample.heart);
            Server.Disconnect 0] 0).
  - vm_compute. lia.
  - reflexivity.
Defined.

(** ** One event, one line *)

Lemma JsValue_nested_ind (P : JsValue -> Prop) :
  P JNull -> (forall b, P (JBool b)) -> (forall n, P (JNum n)) ->
  (forall s, P (JStr s)) ->
  (forall items, Forall P items -> P (JArr items)) ->
  (forall props, Forall (fun p => P (snd p)) props -> P (JObj props)) ->
  forall v, P v.
Proof.
  intros Hnull Hbool Hnum Hstr Harr Hobj. fix IH 1.
  intros [| b | n | s | items | props].
  - exact Hnull.
  - apply Hbool.
  - apply Hnum.
  - apply Hstr.
  - apply Harr. revert items. fix IHitems 1. intros [|x items].
    + constructor.
    + constructor; [apply IH|apply IHitems].
  - apply Hobj. revert props. fix IHprops 1. intros [|[k x] props].
    + constructor.
    + constructor; [apply IH|apply IHprops].
Qed.

Lemma one_line_app (a b : string) :
  one_line (a +:+ b) = one_line a && one_line b.
Proof.
  induction a as [|c a IH]; simpl; [reflexivity|].
  rewrite IH. apply andb_assoc.
Qed.

Lemma one_line_concat (sep : string) (l : list string) :
  one_line sep = true -> Forall (fun x => one_line x = true) l ->
  one_line (String.concat sep l) = true.
Proof.
  intros Hsep. induction 1 as [|x l Hx Hl IH]; simpl; [reflexivity|].
  destruct l as [|y l]; [exact Hx|].
  rewrite !one_line_app, Hx, Hsep, IH. reflexivity.
Qed.

Lemma one_line_escape (c : ascii) : one_line (escape c) = true.
Proof. destruct c as [[] [] [] [] [] [] [] []]; vm_compute; reflexivity. Qed.

Lemma one_line_quote (s : string) : one_line (quote s) = true.
Proof.
  unfold quote. rewrite !one_line_app.
  assert (H : one_line (escape_all s) = true).
  { induction s as [|c s IH]; simpl; [reflexivity|].
    rewrite one_line_app, one_line_escape, IH. reflexivity. }
  rewrite H. reflexivity.
Qed.

Lemma one_line_pretty_N_go (x : N) (s : string) :
  one_line s = true -> one_line (pretty_N_go x s) = true.
Proof.
  revert s. induction (N.lt_wf_0 x) as [x _ IH]; intros s Hs.
  assert (x = 0 \/ 0 < x)%N as [->|Hpos] by lia.
  - rewrite pretty_N_go_0. exact Hs.
  - rewrite pretty_N_go_step by exact Hpos. apply IH.
    + apply N.div_lt; [exact Hpos|reflexivity].
    + simpl. rewrite Hs. unfold pretty_N_char.
      repeat case_match; reflexivity.
Qed.

Lemma one_line_pretty_Z (n : Z) : one_line (pretty n) = true.
Proof.
  assert (Hpos : forall x : positive, one_line (pretty x) = true).
  { intros x. unfold pretty, pretty_positive, pretty, pretty_N.
    case_decide; [reflexivity|]. apply one_line_pretty_N_go. reflexivity. }
  destruct n as [|x|x]; unfold pretty, pretty_Z.
  - reflexivity.
  - apply Hpos.
  - rewrite one_line_app. simpl. apply Hpos.
Qed.

(** *** The characters of a printed number *)

Lemma every_app (P : ascii -> bool) (a b : string) :
  every P (a +:+ b) = every P a && every P b.
Proof.
  induction a as [|c a IH]; simpl; [reflexivity|].
  rewrite IH. apply andb_assoc.
Qed.

Lemma every_substring (P : ascii -> bool) (s : string) (n m : nat) :
  every P s = true -> every P (String.substring n m s) = true.
Proof.
  revert n m. induction s as [|c s IH]; intros n m H.
  - destruct n, m; reflexivity.
  - simpl in H. apply andb_true_iff in H as [Hc Hs].
    destruct n as [|n]; simpl.
    + destruct m as [|m]; [reflexivity|]. simpl. rewrite Hc. apply IH, Hs.
    + apply IH, Hs.
Qed.

Lemma every_zeros (P : ascii -> bool) (n : nat) :
  P "0"%char = true -> every P (zeros n) = true.
Proof. intros H. induction n as [|n IH]; simpl; [reflexivity|]. by rewrite H. Qed.

Lemma every_pretty_N_go (P : ascii -> bool) (x : N) (s : string) :
  every P "0123456789" = true ->
  every P s = true -> every P (pretty_N_go x s) = true.
Proof.
  intros Hd. revert s. induction (N.lt_wf_0 x) as [x _ IH]; intros s Hs.
  assert (x = 0 \/ 0 < x)%N as [->|Hpos] by lia.
  - rewrite pretty_N_go_0. exact Hs.
  - rewrite pretty_N_go_step by exact Hpos. apply IH.
    + apply N.div_lt; [exact Hpos|reflexivity].
    + simpl. rewrite Hs, andb_true_r. simpl in Hd.
      repeat (apply andb_true_iff in Hd as [? Hd]).
      unfold pretty_N_char. repeat case_match; assumption.
Qed.

Lemma every_pretty_N (P : ascii -> bool) (x : N) :
  every P "0123456789" = true -> every P (pretty x) = true.
Proof.
  intros Hd. unfold pretty, pretty_N. case_decide.
  - simpl in *. apply andb_true_iff in Hd as [-> _]. reflexivity.
  - apply every_pretty_N_go; [exact Hd|reflexivity].
Qed.

Lemma every_pretty_abs (P : ascii -> bool) (z : Z) :
  every P "0123456789" = true -> every P (pretty (Z.abs z)) = true.
Proof.
  intros Hd.
  assert (Hpos : forall x : positive, every P (pretty x) = true).
  { intros x. apply (every_pretty_N P (Npos x) Hd). }
  destruct z as [|x|x]; unfold pretty, pretty_Z; simpl.
  - simpl in Hd. apply andb_true_iff in Hd as [-> _]. reflexivity.
  - apply Hpos.
  - apply Hpos.
Qed.

(** A finite number is printed with digits, a point, an [e] and signs
    only. *)
Lemma every_Number_toString (P : ascii -> bool) (negative : bool) (digits : N)
  (point : Z) :
  every P "0123456789.e+-" = true ->
  every P (Number_toString (Finite negative digits point)) = true.
Proof.
  intros H.
  assert (Hd : every P "0123456789" = true).
  { simpl in *. repeat (apply andb_true_iff in H as [-> H]). reflexivity. }
  assert (Hc : P "0"%char = true /\ P "."%char = true /\ P "e"%char = true /\
               P "+"%char = true /\ P "-"%char = true).
  { simpl in H. repeat (apply andb_true_iff in H as [? H]). auto. }
  destruct Hc as (H0 & Hpt & He & Hplus & Hminus).
  pose proof (every_pretty_N P digits Hd) as Hs.
  assert (Hsign : every P (if negative then "-" else "") = true).
  { destruct negative; simpl; [by rewrite Hminus|reflexivity]. }
  assert (Hexp : every P ("e" +:+ (if (point - 1 <? 0)%Z then "-" else "+")
                          +:+ pretty (Z.abs (point - 1)%Z)) = true).
  { rewrite !every_app, (every_pretty_abs P _ Hd).
    destruct (point - 1 <? 0)%Z; simpl; by rewrite He, ?Hminus, ?Hplus. }
  unfold Number_toString. destruct (digits =? 0)%N.
  { simpl. by rewrite H0. }
  cbv zeta. rewrite every_app, Hsign. simpl andb.
  destruct ((Z.of_nat (String.length (pretty digits)) <=? point)%Z
            && (point <=? 21)%Z).
  { by rewrite every_app, Hs, every_zeros. }
  destruct ((0 <? point)%Z && (point <=? 21)%Z).
  { rewrite !every_app, !every_substring by exact Hs. simpl. by rewrite Hpt. }
  destruct ((-6 <? point)%Z && (point <=? 0)%Z).
  { rewrite !every_app, Hs, every_zeros by exact H0. simpl. by rewrite H0, Hpt. }
  destruct (Z.of_nat (String.length (pretty digits)) =? 1)%Z.
  - by rewrite every_app, Hs, Hexp.
  - rewrite !every_app in *. rewrite !every_substring by exact Hs.
    simpl. rewrite Hpt. simpl. exact Hexp.
Qed.

Lemma one_line_every (s : string) :
  one_line s = every (fun c => negb (is_line_break c)) s.
Proof. induction s as [|c s IH]; simpl; [reflexivity|]. by rewrite IH. Qed.

Lemma one_line_number (n : JsNumber) : one_line (JSON_stringify (JNum n)) = true.
Proof.
  destruct n as [negative digits point|negative]; [|reflexivity].
  change (JSON_stringify (JNum (Finite negative digits point)))
    with (Number_toString (Finite negative digits point)).
  rewrite one_line_every. apply every_Number_toString. reflexivity.
Qed.

Lemma one_line_stringify (v : JsValue) : one_line (JSON_stringify v) = true.
Proof.
  induction v as [| b | n | s | items IH | props IH] using JsValue_nested_ind.
  - reflexivity.
  - destruct b; reflexivity.
  - apply one_line_number.
  - apply one_line_quote.
  - simpl. rewrite !one_line_app. simpl. rewrite andb_true_r.
    apply one_line_concat; [reflexivity|].
    apply List.Forall_map. exact IH.
  - simpl. rewrite !one_line_app. simpl. rewrite andb_true_r.
    apply one_line_concat; [reflexivity|].
    apply List.Forall_map. eapply Forall_impl; [exact IH|].
    intros [k x] Hx. cbn [fst snd] in *.
    rewrite !one_line_app, one_line_quote, Hx. reflexivity.
Qed.

(** [JSON.stringify] escapes line feeds and carriage returns, so whatever
    text a submission carries -- an [embed] pasted over several lines -- the
    payload of its frame is one line.  Every chunk ever written on a
    connection is ["data: "], a payload without a line break, and the two
    line feeds that end the event. *)
Theorem frames_are_single_lines
  (fs : gmap string (list Byte.byte)) (evs : list Server.Event)
  (c : Controller) (chunk : string) :
  chunk ∈ received (Server.steps (Server.init fs) evs) c ->
  exists payload,
    chunk = "data: " +:+ payload +:+ LF +:+ LF /\
    one_line payload = true /\
    one_line ("data: " +:+ payload) = true.
Proof.
  intros Hin.
  assert (Hw : Server.consistent (Server.steps (Server.init fs) evs))
    by apply consistent_reachable.
  unfold received in Hin.
  destruct (streams (Server.steps (Server.init fs) evs) !! c) as [s0|] eqn:Hs.
  2: { by apply not_elem_of_nil in Hin. }
  destruct (Server.chunks_framed _ Hw c s0 chunk Hs Hin) as [submission ->].
  exists (JSON_stringify (json_of_submission submission)).
  split; [reflexivity|].
  rewrite one_line_app, one_line_stringify. split; reflexivity.
Qed.

Lemma frames_are_single_lines_witness :
  let two_lines :=
    JObj [("embed", JStr ("<iframe" +:+ LF +:+ "src='x'></iframe>"))] in
  let w :=
    Server.steps Sample.empty
      [Server.Incoming Sample.env1 (mkRequest "GET" "/events" None);
       Server.Incoming Sample.env1 (Sample.post two_lines)] in
  exists chunk payload,
    received w 0 = [chunk] /\
    chunk = "data: " +:+ payload +:+ LF +:+ LF /\
    one_line payload = true.
Proof.
  intros two_lines w.
  assert (Hrecv : exists chunk, received w 0 = [chunk]).
  { eexists. vm_compute. reflexivity. }
  destruct Hrecv as [chunk Hrecv].
  destruct (frames_are_single_lines ∅
              [Server.Incoming Sample.env1 (mkRequest "GET" "/events" None);
               Server.Incoming Sample.env1 (Sample.post two_lines)] 0 chunk)
    as (payload & Hchunk & Hline & _).
  - change (chunk ∈ received w 0). rewrite Hrecv. by left.
  - exists chunk, payload. split; [exact Hrecv|]. split; [exact Hchunk|exact Hline].
Defined.

Lemma frames_in_order_from (posts : list (Env * Request)) (w : World)
  (c : Controller) :
  Server.consistent w -> Forall accepted_post posts ->
  Server.registered w c = true ->
  exists records,
    Forall2
      (fun p r =>
         forall w', Server.consistent w' ->
           fst (Main.handler (fst p) (snd p) w') = Return (created r))
      posts records /\
    Server.registered (submit_all w posts) c = true /\
    received (submit_all w posts) c
    = (received w c
       ++ List.map
            (fun r => Sse.frame (JSON_stringify (json_of_submission r)))
            records)%list.
Proof.
  revert w. induction posts as [|p posts IH]; intros w Hw Hacc Hc.
  - exists []. split; [constructor|]. split; [exact Hc|].
    simpl. by rewrite app_nil_r.
  - apply Forall_cons in Hacc as [Hp Hacc].
    destruct (accepted_post_created p Hp) as [submission Hrun].
    change (submit_all w (p :: posts))
      with (submit_all (snd (Main.handler (fst p) (snd p) w)) posts).
    set (w1 := snd (Main.handler (fst p) (snd p) w)).
    assert (Hw1 : Server.consistent w1).
    { apply (consistent_step w (Server.Incoming (fst p) (snd p)) Hw). }
    assert (Hc1 : Server.registered w1 c = true).
    { unfold w1. rewrite (Hrun w Hw). exact Hc. }
    assert (Hr1 : received w1 c
                  = (received w c
                     ++ [Sse.frame (JSON_stringify (json_of_submission submission))])%list).
    { unfold w1. rewrite (Hrun w Hw). simpl. apply registered_true in Hc.
      apply (received_deliver_in _ (sseClients w) (with_kv _ w) c).
      - apply (Server.clients_distinct w Hw).
      - exact Hc.
      - apply (Server.clients_readable w Hw c Hc). }
    destruct (IH w1 Hw1 Hacc Hc1) as (records & Hall & Hreg & Hrecv).
    exists (submission :: records). split.
    + constructor; [|exact Hall]. intros w' Hw'. rewrite (Hrun w' Hw'). reflexivity.
    + split; [exact Hreg|]. rewrite Hrecv, Hr1, <- app_assoc. reflexivity.
Qed.

(** A connection sees the submissions in the order the server handled them:
    after a series of accepted submissions in a reachable state, a
    registered connection holds, after what it held before, the frame of
    each answer, first submission first, and is still registered. *)
Theorem frames_in_submission_order
  (fs : gmap string (list Byte.byte)) (evs : list Server.Event)
  (posts : list (Env * Request)) (c : Controller) :
  let w := Server.steps (Server.init fs) evs in
  Forall accepted_post posts ->
  Server.registered w c = true ->
  exists records,
    Forall2
      (fun p r =>
         forall w', Server.consistent w' ->
           fst (Main.handler (fst p) (snd p) w') = Return (created r))
      posts records /\
    Server.registered (submit_all w posts) c = true /\
    received (submit_all w posts) c
    = (received w c
       ++ List.map
            (fun r => Sse.frame (JSON_stringify (json_of_submission r)))
            records)%list.
Proof.
  intros w Hacc Hc. apply frames_in_order_from; [|exact Hacc|exact Hc].
  apply consistent_reachable.
Qed.

Lemma frames_in_submission_order_witness :
  let w :=
    Server.steps Sample.empty
      [Server.Incoming Sample.env1 (mkRequest "GET" "/events" None)] in
  let posts :=
    [(Sample.env1, Sample.post Sample.heart);
     (Sample.env2, Sample.post (Sample.heart_by (JStr "pim")))] in
  exists records,
    length records = 2 /\
    received (submit_all w posts) 0
    = List.map (fun r => Sse.frame (JSON_stringify (json_of_submission r)))
        records.
Proof.
  intros w posts.
  destruct (frames_in_submission_order ∅
              [Server.Incoming Sample.env1 (mkRequest "GET" "/events" None)]
              posts 0)
    as (records & Hall & _ & Hrecv).
  - repeat constructor; simpl; try reflexivity;
      (eexists _, _; split; [reflexivity|]; split; [reflexivity|discriminate]).
  - reflexivity.
  - exists records. split.
    + symmetry. apply (Forall2_length _ _ _ Hall).
    + exact Hrecv.
Defined.

(** ** Submissions in the states the server reaches *)

(** With the clients all on readable streams, a well-formed submission that
    the store accepts is answered 201, with the JSON of the record it
    writes. *)
Lemma consistent_submit (env : Env) (req : Request) (w : World)
  (data : JsValue) (e : string) (data_creator : option JsValue) :
  Server.consistent w ->
  method req = "POST" -> pathname req = "/submit" ->
  json req = Some data ->
  get data "embed" = Return (Some (JStr e)) -> e <> "" ->
  get data "creator" = Return data_creator ->
  kv_set_rejects env = false ->
  Main.handler env req w
  = (Return
       (mkResponse 201 [("Content-Type", "application/json")]
          (BodyText
             (JSON_stringify
                (JObj [("id", JStr (uuid env)); ("embed", JStr e);
                       ("creator", or_else data_creator JNull);
                       ("timestamp", JNum (now env))])))),
     with_streams
       (deliver
          (Sse.frame
             (JSON_stringify
                (JObj [("id", JStr (uuid env)); ("embed", JStr e);
                       ("creator", or_else data_creator JNull);
                       ("timestamp", JNum (now env))])))
          (sseClients w))
       (with_kv
          (Kv.set ["iframe"; uuid env]
             (mkSubmission (uuid env) e (or_else data_creator JNull) (now env)))
          w)).
Proof.
  intros Hw Hm Hp Hj Hg He Hc Hkv. rewrite route_submit by assumption.
  rewrite (handleSubmit_valid env req w data e data_creator Hj Hg He Hc).
  rewrite Hkv, broadcast_unfold. simpl sseClients.
  rewrite for_of_enqueue_readable; [reflexivity|].
  intros c Hin. apply (Server.clients_readable w Hw c Hin).
Qed.

Lemma submit_store_rejects (env : Env) (req : Request) (w : World)
  (data : JsValue) (e : string) :
  method req = "POST" -> pathname req = "/submit" ->
  json req = Some data ->
  get data "embed" = Return (Some (JStr e)) -> e <> "" ->
  kv_set_rejects env = true ->
  Main.handler env req w
  = (Return
       (mkResponse 400 [("Content-Type", "application/json")]
          (BodyText
             (JSON_stringify
                (JObj [("error", JStr "Invalid JSON or server error.")])))),
     w).
Proof.
  intros Hm Hp Hj Hg He Hkv. rewrite route_submit by assumption.
  destruct (get_embed_object _ _ Hg) as [props ->].
  rewrite (handleSubmit_valid env req w _ e _ Hj Hg He
             (get_object_total props "creator")).
  rewrite Hkv. reflexivity.
Qed.

(** C2, as the code has it.  In every state the server reaches, a body with
    a non-empty string [embed] is answered, when the store accepts the
    write, with status 201 and the JSON of a record whose [embed] is the one
    sent, whose [creator] is [null] when the field is omitted, and whose
    [id] differs from the [id] in the answer to any other such call --
    [crypto.randomUUID()] giving the two calls different values.  When the
    store rejects the write, the answer is 400 and nothing has changed. *)
Theorem submit_valid_created
  (fs : gmap string (list Byte.byte)) (evs : list Server.Event)
  (env : Env) (req : Request) (data : JsValue) (e : string) :
  method req = "POST" -> pathname req = "/submit" ->
  json req = Some data ->
  get data "embed" = Return (Some (JStr e)) -> e <> "" ->
  let w := Server.steps (Server.init fs) evs in
  (kv_set_rejects env = false ->
   exists i creator w',
     Main.handler env req w
     = (Return
          (mkResponse 201 [("Content-Type", "application/json")]
             (BodyText
                (JSON_stringify
                   (JObj [("id", JStr i); ("embed", JStr e);
                          ("creator", creator);
                          ("timestamp", JNum (now env))])))),
        w') /\
     (get data "creator" = Return None -> creator = JNull) /\
     forall fs' evs' env' req' data' e',
       method req' = "POST" -> pathname req' = "/submit" ->
       json req' = Some data' ->
       get data' "embed" = Return (Some (JStr e')) -> e' <> "" ->
       kv_set_rejects env' = false ->
       uuid env' <> uuid env ->
       exists i' creator' w'',
         Main.handler env' req' (Server.steps (Server.init fs') evs')
         = (Return
              (mkResponse 201 [("Content-Type", "application/json")]
                 (BodyText
                    (JSON_stringify
                       (JObj [("id", JStr i'); ("embed", JStr e');
                              ("creator", creator');
                              ("timestamp", JNum (now env'))])))),
            w'') /\
         i' <> i) /\
  (kv_set_rejects env = true ->
   Main.handler env req w
   = (Return
        (mkResponse 400 [("Content-Type", "application/json")]
           (BodyText
              (JSON_stringify
                 (JObj [("error", JStr "Invalid JSON or server error.")])))),
      w)).
Proof.
  intros Hm Hp Hj Hg He w. split.
  - intros Hkv. destruct (get_embed_object _ _ Hg) as [props ->].
    exists (uuid env), (or_else (own_property "creator" props) JNull).
    eexists. split.
    { apply (consistent_submit env req w _ e _ (consistent_reachable fs evs)
               Hm Hp Hj Hg He (get_object_total props "creator") Hkv). }
    split.
    { simpl. intros [= ->]. reflexivity. }
    intros fs' evs' env' req' data' e' Hm' Hp' Hj' Hg' He' Hkv' Hu.
    destruct (get_embed_object _ _ Hg') as [props' ->].
    exists (uuid env'), (or_else (own_property "creator" props') JNull).
    eexists. split; [|exact Hu].
    apply (consistent_submit env' req' _ _ e' _ (consistent_reachable fs' evs')
             Hm' Hp' Hj' Hg' He' (get_object_total props' "creator") Hkv').
  - intros Hkv. apply (submit_store_rejects env req w data e); assumption.
Qed.

Lemma submit_valid_created_witness :
  exists i w',
    Main.handler Sample.env1 (Sample.post Sample.heart) Sample.empty
    = (Return
         (mkResponse 201 [("Content-Type", "application/json")]
            (BodyText
               (JSON_stringify
                  (JObj [("id", JStr i);
                         ("embed", JStr "<iframe src='https://editor.p5js.org/heart/full/1'></iframe>");
                         ("creator", JNull);
                         ("timestamp", JNum (now Sample.env1))])))),
       w') /\
    exists i' creator' w'',
      Main.handler Sample.env2 (Sample.post (Sample.heart_by (JStr "pim")))
        (Server.steps (Server.init ∅)
           [Server.Incoming Sample.env1 (Sample.post Sample.heart)])
      = (Return
           (mkResponse 201 [("Content-Type", "application/json")]
              (BodyText
                 (JSON_stringify
                    (JObj [("id", JStr i');
                           ("embed", JStr "<iframe src='https://editor.p5js.org/heart/full/1'></iframe>");
                           ("creator", creator');
                           ("timestamp", JNum (now Sample.env2))])))),
         w'') /\
      i' <> i.
Proof.
  destruct (submit_valid_created ∅ [] Sample.env1 (Sample.post Sample.heart)
              Sample.heart
              "<iframe src='https://editor.p5js.org/heart/full/1'></iframe>"
              eq_refl eq_refl eq_refl eq_refl ltac:(discriminate))
    as [Hok _].
  destruct (Hok eq_refl) as (i & creator & w' & Hrun & Hnull & Hother).
  rewrite (Hnull eq_refl) in Hrun.
  exists i, w'. split; [exact Hrun|].
  apply (Hother ∅ [Server.Incoming Sample.env1 (Sample.post Sample.heart)]
           Sample.env2 (Sample.post (Sample.heart_by (JStr "pim")))
           (Sample.heart_by (JStr "pim"))
           "<iframe src='https://editor.p5js.org/heart/full/1'></iframe>"
           eq_refl eq_refl eq_refl eq_refl ltac:(discriminate) eq_refl
           ltac:(discriminate)).
Defined.

(** C2 as it is written fails: when the store rejects the write, a
    well-formed submission is answered 400, not 201. *)
Lemma submit_valid_not_always_created :
  method (Sample.post Sample.heart) = "POST" /\
  pathname (Sample.post Sample.heart) = "/submit" /\
  json (Sample.post Sample.heart)
  = Some (JObj [("embed",
                 JStr "<iframe src='https://editor.p5js.org/heart/full/1'></iframe>")]) /\
  kv_set_rejects Sample.env_kv_down = true /\
  exists resp,
    Main.handler Sample.env_kv_down (Sample.post Sample.heart)
      (Server.steps (Server.init ∅) [])
    = (Return resp, Server.steps (Server.init ∅) []) /\
    status resp = 400%Z /\ status resp <> 201%Z.
Proof.
  repeat (split; [reflexivity|]).
  eexists. split; [vm_compute; reflexivity|].
  split; [reflexivity|discriminate].
Qed.

(** ** The [creator] field *)

(** A truthy value other than an infinite number is never printed as
    [null]. *)
Lemma stringify_truthy_not_null (v : JsValue) :
  truthy (Some v) = true -> (forall b, v <> JNum (Infinity b)) ->
  JSON_stringify v <> "null".
Proof.
  intros Ht Hfin. destruct v as [| b | n | s | items | props].
  - discriminate Ht.
  - simpl in Ht. subst b. discriminate.
  - destruct n as [negative digits point|negative].
    + change (JSON_stringify (JNum (Finite negative digits point)))
        with (Number_toString (Finite negative digits point)).
      intros Heq.
      pose proof (every_Number_toString
                    (fun c => negb (Ascii.eqb c "n")) negative digits point
                    eq_refl) as Hn.
      rewrite Heq in Hn. discriminate Hn.
    + exfalso. apply (Hfin negative). reflexivity.
  - unfold JSON_stringify, quote, dquote, chr. simpl. discriminate.
  - simpl. discriminate.
  - simpl. discriminate.
Qed.

(** C10, as the code has it.  In every state the server reaches,
    [handleSubmit] keeps a truthy [creator] of any type as it is and
    replaces an absent or falsy one (the empty string, 0, false, null) by
    [null]; the record with that [creator] is written to the store, and the
    answer is 201 with the JSON of that record.  In that JSON an infinite
    number is printed as [null]; any other truthy creator is printed as
    something else than [null]. *)
Theorem submit_creator_verbatim
  (fs : gmap string (list Byte.byte)) (evs : list Server.Event)
  (env : Env) (req : Request) (data : JsValue) (e : string)
  (data_creator : option JsValue) :
  method req = "POST" -> pathname req = "/submit" ->
  json req = Some data ->
  get data "embed" = Return (Some (JStr e)) -> e <> "" ->
  get data "creator" = Return data_creator ->
  kv_set_rejects env = false ->
  let w := Server.steps (Server.init fs) evs in
  exists kept w',
    (forall v, data_creator = Some v -> truthy (Some v) = true -> kept = v) /\
    (truthy data_creator = false -> kept = JNull) /\
    Main.handler env req w
    = (Return
         (mkResponse 201 [("Content-Type", "application/json")]
            (BodyText
               (JSON_stringify
                  (JObj [("id", JStr (uuid env)); ("embed", JStr e);
                         ("creator", kept);
                         ("timestamp", JNum (now env))])))),
       w') /\
    kv w'
    = Kv.set ["iframe"; uuid env] (mkSubmission (uuid env) e kept (now env))
        (kv w) /\
    (forall b, JSON_stringify (JNum (Infinity b)) = JSON_stringify JNull) /\
    (truthy (Some kept) = true -> (forall b, kept <> JNum (Infinity b)) ->
     JSON_stringify kept <> JSON_stringify JNull) /\
    truthy (Some (JNum 7)) = true /\
    truthy (Some (JArr [])) = true /\
    truthy (Some (JNum (Infinity false))) = true /\
    Forall (fun v => truthy v = false)
           [None; Some (JStr ""); Some (JNum 0); Some (JBool false); Some JNull].
Proof.
  intros Hm Hp Hj Hg He Hc Hkv w.
  exists (or_else data_creator JNull). eexists.
  split.
  { intros v -> Hv. unfold or_else. rewrite Hv. reflexivity. }
  split.
  { intros Hf. unfold or_else. destruct data_creator; [|reflexivity].
    rewrite Hf. reflexivity. }
  split.
  { apply (consistent_submit env req w data e data_creator
             (consistent_reachable fs evs) Hm Hp Hj Hg He Hc Hkv). }
  split; [reflexivity|].
  split; [intros b; reflexivity|].
  split; [apply stringify_truthy_not_null|].
  split; [reflexivity|]. split; [reflexivity|]. split; [reflexivity|].
  repeat constructor.
Qed.

Lemma submit_creator_verbatim_witness :
  exists w',
    Main.handler Sample.env1 (Sample.post (Sample.heart_by (JNum 14)))
      Sample.empty
    = (Return
         (mkResponse 201 [("Content-Type", "application/json")]
            (BodyText
               (JSON_stringify
                  (JObj [("id", JStr (uuid Sample.env1));
                         ("embed", JStr "<iframe src='https://editor.p5js.org/heart/full/1'></iframe>");
                         ("creator", JNum 14);
                         ("timestamp", JNum (now Sample.env1))])))),
       w') /\
    kv w'
    = [(["iframe"; uuid Sample.env1],
        mkSubmission (uuid Sample.env1)
          "<iframe src='https://editor.p5js.org/heart/full/1'></iframe>"
          (JNum 14) (now Sample.env1))] /\
    JSON_stringify (JNum 14) <> JSON_stringify JNull.
Proof.
  destruct (submit_creator_verbatim ∅ [] Sample.env1
              (Sample.post (Sample.heart_by (JNum 14)))
              (Sample.heart_by (JNum 14))
              "<iframe src='https://editor.p5js.org/heart/full/1'></iframe>"
              (Some (JNum 14)) eq_refl eq_refl eq_refl eq_refl
              ltac:(discriminate) eq_refl eq_refl)
    as (kept & w' & Hkeep & _ & Hrun & Hkv & _ & Hshown & _).
  assert (Hk : kept = JNum 14) by (apply Hkeep; reflexivity).
  subst kept. exists w'. split; [exact Hrun|]. split; [exact Hkv|].
  apply Hshown; [reflexivity|]. intros b. discriminate.
Defined.

(** C10 as it is written fails for a number too large for a double: the
    literal [1e999] is read as [Infinity], which is truthy and is written to
    the store as it is, but the answer carries [null] for the creator -- the
    very body a submission without creator would get. *)
Lemma infinite_creator_returned_as_null :
  truthy (Some (JNum (Infinity false))) = true /\
  JNum (Infinity false) <> JNull /\
  exists w',
    Main.handler Sample.env1
      (Sample.post (Sample.heart_by (JNum (Infinity false)))) Sample.empty
    = (Return
         (mkResponse 201 [("Content-Type", "application/json")]
            (BodyText
               (JSON_stringify
                  (JObj [("id", JStr (uuid Sample.env1));
                         ("embed", JStr "<iframe src='https://editor.p5js.org/heart/full/1'></iframe>");
                         ("creator", JNull);
                         ("timestamp", JNum (now Sample.env1))])))),
       w') /\
    kv w'
    = [(["iframe"; uuid Sample.env1],
        mkSubmission (uuid Sample.env1)
          "<iframe src='https://editor.p5js.org/heart/full/1'></iframe>"
          (JNum (Infinity false)) (now Sample.env1))].
Proof.
  split; [reflexivity|]. split; [discriminate|].
  eexists. split; [vm_compute; reflexivity|]. vm_compute. reflexivity.
Qed.

(** ** Writes that would fail *)


